(** * CLEPP: knowledge-graph-embedding orchestration and classifier wrapper

    A shallow embedding of [src/clep/embedding/kge.py] and
    [src/vp4p/classification/classify.py].

    Conventions of the embedding:
    - a pandas frame is the list of its rows, in row order; every row carries
      its index label, because the splitter removes rows by label;
    - a cell of an untyped column is a [Cell]: missing (NaN), text or integer;
    - a Python float that stands for a fraction is the rational it denotes;
    - a Python dict is a [gmap] when only lookups matter and an association
      list when the order of its keys is observed;
    - a raised exception is the [Raise] branch of [result];
    - numpy's global random state, the file system and the calls into
      pykeen are threaded through the computation as a [World]. *)

From Stdlib Require Import List String Ascii ZArith QArith Qround Lia Bool.
From Stdlib Require Import Permutation Sorted DecimalString.
From stdpp Require Import gmap strings list sorting.
Import ListNotations.

Local Open Scope string_scope.
Local Open Scope list_scope.

(** ** Exceptions and results *)

Inductive Exn : Type :=
| KeyError (key : string)
| ValueError (msg : string)
| ZeroDivisionError
| ModuleNotFoundError (msg : string)
| LibraryError (msg : string).

Inductive result (A : Type) : Type :=
| Ok (a : A)
| Raise (e : Exn).
Arguments Ok {A} a.
Arguments Raise {A} e.

Definition is_ok {A} (r : result A) : bool :=
  match r with Ok _ => true | Raise _ => false end.

(** A cell of a frame whose column is not typed: missing, text or integer. *)
Inductive Cell : Type :=
| NaN
| Str (s : string)
| Int (z : Z).

Definition isna (c : Cell) : bool :=
  match c with NaN => true | _ => false end.

(** [str(c)], as [DataFrame.astype(str)] applies it to every cell. *)
Definition str (c : Cell) : string :=
  match c with
  | NaN => "nan"
  | Str s => s
  | Int z => NilEmpty.string_of_int (Z.to_int z)
  end.

(** [d[key]] on a dict. *)
Definition getitem {V} (d : gmap string V) (key : string) : result V :=
  match d !! key with
  | Some v => Ok v
  | None => Raise (KeyError key)
  end.

(** * [clep/embedding/kge.py] *)

Module kge.

(** ** The ambient world

    [rng] is the stream of raw draws still to be consumed from numpy's global
    random state (seeding fixes this stream); [trace] is the list of effects
    on files and of calls into the embedding library, most recent last. *)

Record Edge : Type := mkEdge { source : string; relation : string; target : string }.

Global Instance Edge_eq_dec : EqDecision Edge.
Proof. solve_decision. Defined.

Inductive Event : Type :=
| ToCsv (path : string) (rows : list Edge)
| HpoPipeline (training testing validation : string)
| EnsureDir (path : string)
| SaveToDirectory (path : string)
| PipelineFromPath (path training testing validation : string).

Record World : Type := mkWorld { rng : list nat; trace : list Event }.

Definition M (A : Type) : Type := World -> result A * World.

Definition ret {A} (a : A) : M A := fun w => (Ok a, w).
Definition raise {A} (e : Exn) : M A := fun w => (Raise e, w).
Definition bind {A B} (m : M A) (k : A -> M B) : M B :=
  fun w => match m w with
           | (Ok a, w') => k a w'
           | (Raise e, w') => (Raise e, w')
           end.
Definition lift {A} (r : result A) : M A := fun w => (r, w).
Definition emit (e : Event) : M unit :=
  fun w => (Ok tt, mkWorld (rng w) (trace w ++ [e])).

Notation "x <- m ;; k" := (bind m (fun x => k))
  (at level 100, m at next level, right associativity).

(** ** Python and pandas primitives *)

(** [Series.unique] and [DataFrame.drop_duplicates]: keep the first row for
    every key, in order of first appearance. *)
Fixpoint unique_by {A K} `{EqDecision K} (key : A -> K) (seen : list K) (l : list A)
  : list A :=
  match l with
  | [] => []
  | x :: rest =>
      if bool_decide (key x ∈ seen) then unique_by key seen rest
      else x :: unique_by key (key x :: seen) rest
  end.

(** [sorted(l, key=...)]: a stable sort; insertion sort computes the same list
    as any other stable sort. *)
Fixpoint insert_sorted {A} (leb : A -> A -> bool) (x : A) (l : list A) : list A :=
  match l with
  | [] => [x]
  | y :: rest => if leb x y then x :: l else y :: insert_sorted leb x rest
  end.

Definition sorted {A} (leb : A -> A -> bool) (l : list A) : list A :=
  foldr (insert_sorted leb) [] l.

(** Python's [round] on a float: to the nearest integer, ties to even. *)
Definition py_round (q : Q) : Z :=
  let f := Qfloor q in
  let r := (q - inject_Z f)%Q in
  match (r ?= 1 # 2)%Q with
  | Lt => f
  | Gt => (f + 1)%Z
  | Eq => if Z.even f then f else (f + 1)%Z
  end.

(** [numpy.random.RandomState.choice(n, size, replace=False)]: [size] distinct
    positions below [n]. Each raw draw selects one of the positions not yet
    taken; every ordered selection without replacement is the outcome of some
    stream of draws. *)
Fixpoint choice_from (pool : list nat) (size : nat) (draws : list nat)
  : list nat * list nat :=
  match size with
  | O => ([], draws)
  | S size' =>
      match pool with
      | [] => ([], draws)
      | _ :: _ =>
          let i := (hd 0 draws mod length pool)%nat in
          let '(picked, draws') := choice_from (delete i pool) size' (tl draws) in
          (nth i pool 0%nat :: picked, draws')
      end
  end.

Definition choice (n size : nat) : M (list nat) :=
  fun w =>
    let '(picked, draws') := choice_from (seq 0 n) size (rng w) in
    (Ok picked, mkWorld draws' (trace w)).

(** A frame with the columns [source], [relation], [target]. *)
Record Row : Type := mkRow { index : nat; edge : Edge }.

Global Instance Row_eq_dec : EqDecision Row.
Proof. solve_decision. Defined.

Definition take (positions : list nat) (df : list Row) : list Row :=
  omap (fun i => df !! i) positions.

(** [DataFrame.sample(frac=frac)], without replacement and without weights. *)
Definition sample (frac : Q) (df : list Row) : M (list Row) :=
  if negb (Qle_bool frac 1) then
    raise (ValueError "Replace has to be set to `True` when upsampling the population `frac` > 1.")
  else if negb (Qle_bool 0 frac) then
    raise (ValueError "A negative number was passed to `frac`.")
  else
    positions <- choice (length df) (Z.to_nat (py_round (frac * inject_Z (Z.of_nat (length df)))%Q)) ;;
    ret (take positions df).

(** [data[~data.index.isin(temp.index)]] *)
Definition drop_index_isin (temp data : list Row) : list Row :=
  filter (fun r => index r ∉ map index temp) data.

(** [pd.concat(frames, ignore_index=True, sort=False)]: the rows of the
    frames in order, relabelled 0, 1, ...; an empty list of frames is an
    error. *)
Definition relabel (edges : list Edge) : list Row :=
  imap (fun i e => mkRow i e) edges.

Definition concat_ignore_index (frames : list (list Row)) : result (list Row) :=
  match frames with
  | [] => Raise (ValueError "No objects to concatenate")
  | _ :: _ => Ok (relabel (map edge (concat frames)))
  end.

(** ** [_weighted_splitter] *)

(** The inner loop over the relation types, for one fraction: the state is
    the pool [data] and the frames collected so far. *)
Fixpoint split_round (frac_size : Q) (relations : list string)
    (data : list Row) (frames : list (list Row)) : M (list Row * list (list Row)) :=
  match relations with
  | [] => ret (data, frames)
  | rel :: relations' =>
      temp <- sample frac_size (filter (fun r => relation (edge r) = rel) data) ;;
      split_round frac_size relations' (drop_index_isin temp data) (frames ++ [temp])
  end.

(** The outer loop over the three fractions. *)
Fixpoint split_rounds (fracs : list Q) (relations : list string)
    (data : list Row) (split : list (list Row)) : M (list (list Row)) :=
  match fracs with
  | [] => ret split
  | frac_size :: fracs' =>
      st <- split_round frac_size relations data [] ;;
      part <- lift (concat_ignore_index (snd st)) ;;
      split_rounds fracs' relations (fst st) (split ++ [part])
  end.

Definition unique_relations (edgelist : list Row) : list string :=
  sorted String.leb (unique_by id [] (map (fun r => relation (edge r)) edgelist)).

Definition _weighted_splitter (edgelist : list Row) (train_size validation_size : Q)
  : M (list (list Row)) :=
  if Qeq_bool (1 - train_size) 0 then raise ZeroDivisionError
  else
    let validation_size := (validation_size / (1 - train_size))%Q in
    let test_size := 1%Q in
    let relations := unique_relations edgelist in
    let data := unique_by edge [] edgelist in
    split_rounds [train_size; validation_size; test_size] relations data [].

(** ** [do_kge] and the two calls into the embedding library *)

(** The input edgelist: with or without the [label] column. *)
Record LRow : Type := mkLRow { lindex : nat; ledge : Edge; label : Cell }.

Inductive EdgeFrame : Type :=
| WithoutLabel (rows : list Row)
| WithLabel (rows : list LRow).

(** [edgelist['label']]: the rows, so that the column can be used as a mask. *)
Definition getitem_label (edgelist : EdgeFrame) : result (list LRow) :=
  match edgelist with
  | WithoutLabel _ => Raise (KeyError "label")
  | WithLabel rows => Ok rows
  end.

(** [edgelist.drop(columns='label')] *)
Definition drop_label (edgelist : EdgeFrame) : result (list Row) :=
  match edgelist with
  | WithoutLabel _ => Raise (KeyError "['label'] not found in axis")
  | WithLabel rows => Ok (map (fun r => mkRow (lindex r) (ledge r)) rows)
  end.

(** [edgelist[~edgelist['label'].isna()].drop_duplicates('source')] *)
Definition unique_nodes (rows : list LRow) : list LRow :=
  unique_by (fun r => source (ledge r)) []
    (filter (fun r => isna (label r) = false) rows).

(** [{patient: label for patient, label in zip(source, label)}] *)
Definition label_mapping_of (nodes : list LRow) : gmap string Cell :=
  foldl (fun m r => <[source (ledge r) := label r]> m) ∅ nodes.

(** [os.path.join] of a directory and relative components. *)
Definition ends_with_slash (a : string) : bool :=
  match String.get (String.length a - 1) a with
  | Some c => bool_decide (c = "/"%char)
  | None => false
  end.

Definition path_join2 (a b : string) : string :=
  if bool_decide (a = "") then b
  else if ends_with_slash a then a +:+ b
  else a +:+ "/" +:+ b.

Definition path_join (a : string) (parts : list string) : string :=
  foldl path_join2 a parts.

(** A two-dimensional numpy array of floats and the trained model: the
    entity-to-id dict in its key order and the entity representation. *)
Record ndarray : Type := mkArray { array_rows : list (list Q); shape1 : nat }.

Record Model : Type := mkModel {
  entity_to_id : list (string * nat);
  entity_representation : ndarray
}.

Definition _model_to_numpy (model : Model) : ndarray :=
  entity_representation model.

(** The embedding table: its columns and its rows; the cell [row_label] of a
    row is part of the table only once the column [label] exists. *)
Record TRow : Type := mkTRow { name : string; components : list Q; row_label : Cell }.

Record Table : Type := mkTable { columns : list string; rows : list TRow }.

(** [pd.DataFrame(data=..., columns=..., index=...)] *)
Definition DataFrame (data : ndarray) (cols : list string) (idx : list string)
  : result Table :=
  if bool_decide (length idx = length (array_rows data)
                  /\ length cols = shape1 data) then
    Ok (mkTable cols (zip_with (fun n v => mkTRow n v NaN) idx (array_rows data)))
  else Raise (ValueError "Shape of passed values does not match the indices").

(** [embedding.at[index, 'label'] = value] *)
Definition at_set_label (idx : string) (value : Cell) (t : Table) : Table :=
  mkTable
    (if bool_decide ("label" ∈ columns t) then columns t else columns t ++ ["label"])
    (map (fun r => if bool_decide (name r = idx)
                   then mkTRow (name r) (components r) value else r) (rows t)).

(** The loop [for index in embedding.index: ...]. *)
Fixpoint attach_labels (label_mapping : gmap string Cell) (idxs : list string)
    (t : Table) : result Table :=
  match idxs with
  | [] => Ok t
  | i :: idxs' =>
      match getitem label_mapping i with
      | Ok v => attach_labels label_mapping idxs' (at_set_label i v t)
      | Raise e => Raise e
      end
  end.

(** [f'Component_{i}' for i in range(1, k + 1)] *)
Definition embedding_columns (k : nat) : list string :=
  map (fun i => "Component_" +:+ NilEmpty.string_of_uint (Nat.to_uint i)) (seq 1 k).

(** [sorted(node_list, key=lambda x: entity_to_id[x])] *)
Definition id_of (d : list (string * nat)) (x : string) : nat :=
  match find (fun kv => bool_decide (fst kv = x)) d with
  | Some kv => snd kv
  | None => 0
  end.

Definition embedding_index (model : Model) : list string :=
  let node_list := map fst (entity_to_id model) in
  sorted (fun x y => Nat.leb (id_of (entity_to_id model) x) (id_of (entity_to_id model) y))
    node_list.

(** The keys that [run_optimization] reads, in the order of the keyword
    arguments of the call: (keyword of [hpo_pipeline], key of [model_config]). *)
Definition hpo_keywords : list (string * string) :=
  [ ("model", "model");
    ("model_kwargs", "model_kwargs");
    ("model_kwargs_ranges", "model_kwargs_ranges");
    ("loss", "loss_function");
    ("loss_kwargs", "loss_kwargs");
    ("loss_kwargs_ranges", "loss_kwargs_ranges");
    ("regularizer", "regularizer");
    ("optimizer", "optimizer");
    ("optimizer_kwargs", "optimizer_kwargs");
    ("optimizer_kwargs_ranges", "optimizer_kwargs_ranges");
    ("training_loop", "training_loop");
    ("training_loop_kwargs", "training_loop_kwargs");
    ("training_kwargs", "training_kwargs");
    ("training_kwargs_ranges", "training_kwargs_ranges");
    ("negative_sampler", "negative_sampler");
    ("negative_sampler_kwargs", "negative_sampler_kwargs");
    ("negative_sampler_kwargs_ranges", "negative_sampler_kwargs_ranges");
    ("stopper", "stopper");
    ("stopper_kwargs", "stopper_kwargs");
    ("evaluator", "evaluator");
    ("evaluator_kwargs", "evaluator_kwargs");
    ("evaluation_kwargs", "evaluation_kwargs");
    ("n_trials", "n_trials");
    ("timeout", "timeout");
    ("metric", "metric");
    ("direction", "direction");
    ("sampler", "sampler");
    ("pruner", "pruner") ].

Section Orchestration.

(** The values of [model_config] and the two entry points of the embedding
    library; what they do depends on the files written so far. *)
Variable Any : Type.
Variable hpo_pipeline :
  string -> string -> string -> list (string * Any) -> list Event -> result unit.
Variable pipeline_from_path :
  string -> string -> string -> string -> list Event -> result Model.

(** The arguments of a call are evaluated left to right, before the call. *)
Fixpoint keyword_arguments (model_config : gmap string Any)
    (keys : list (string * string)) : result (list (string * Any)) :=
  match keys with
  | [] => Ok []
  | (kw, key) :: keys' =>
      match getitem model_config key with
      | Raise e => Raise e
      | Ok v =>
          match keyword_arguments model_config keys' with
          | Raise e => Raise e
          | Ok args => Ok ((kw, v) :: args)
          end
      end
  end.

Definition run_optimization (dataset : string * string * string)
    (model_config : gmap string Any) (out_dir : string) : M unit :=
  let '(train_path, validation_path, test_path) := dataset in
  args <- lift (keyword_arguments model_config hpo_keywords) ;;
  _ <- emit (HpoPipeline train_path test_path validation_path) ;;
  _ <- (fun w => (hpo_pipeline train_path test_path validation_path args (trace w), w)) ;;
  let optimization_dir := path_join out_dir ["pykeen_results_optim"] in
  _ <- emit (EnsureDir optimization_dir) ;;
  emit (SaveToDirectory optimization_dir).

Definition run_pipeline (dataset : string * string * string) (out_dir : string)
  : M Model :=
  let '(train_path, validation_path, test_path) := dataset in
  let config_path :=
    path_join out_dir ["pykeen_results_optim"; "best_pipeline"; "pipeline_config.json"] in
  _ <- emit (PipelineFromPath config_path train_path test_path validation_path) ;;
  pipeline_results <-
    (fun w => (pipeline_from_path config_path train_path test_path validation_path
                 (trace w), w)) ;;
  let best_pipeline_dir := path_join out_dir ["pykeen_results_final"] in
  _ <- emit (EnsureDir best_pipeline_dir) ;;
  _ <- emit (SaveToDirectory best_pipeline_dir) ;;
  ret pipeline_results.

(** Lines 37-69 of [do_kge]: the label mapping, the split, the three files
    and the two library runs. *)
Definition do_kge_train (edgelist : EdgeFrame) (out : string)
    (model_config : gmap string Any) (train_size validation_size : Q)
  : M (gmap string Cell * Model) :=
  labelled <- lift (getitem_label edgelist) ;;
  let label_mapping := label_mapping_of (unique_nodes labelled) in
  edgelist <- lift (drop_label edgelist) ;;
  split <- _weighted_splitter edgelist train_size validation_size ;;
  let train := nth 0 split [] in
  let validation := nth 1 split [] in
  let test := nth 2 split [] in
  let train_path := path_join out ["train.edgelist"] in
  let validation_path := path_join out ["validation.edgelist"] in
  let test_path := path_join out ["test.edgelist"] in
  _ <- emit (ToCsv train_path (map edge train)) ;;
  _ <- emit (ToCsv validation_path (map edge validation)) ;;
  _ <- emit (ToCsv test_path (map edge test)) ;;
  _ <- run_optimization (train_path, validation_path, test_path) model_config out ;;
  best_model <- run_pipeline (train_path, validation_path, test_path) out ;;
  ret (label_mapping, best_model).

(** Lines 71-90 of [do_kge]: the embedding table. *)
Definition do_kge_table (design_norm_df : gmap string (list string))
    (label_mapping : gmap string Cell) (best_model : Model) (return_patients : bool)
  : result Table :=
  let embedding_values := _model_to_numpy best_model in
  let embedding_columns := embedding_columns (shape1 embedding_values) in
  let embedding_index := embedding_index best_model in
  match DataFrame embedding_values embedding_columns embedding_index with
  | Raise e => Raise e
  | Ok embedding =>
      if return_patients then
        match getitem design_norm_df "FileName" with
        | Raise e => Raise e
        | Ok file_names =>
            let embedding :=
              mkTable (columns embedding)
                (filter (fun r => name r ∈ file_names) (rows embedding)) in
            attach_labels label_mapping (map name (rows embedding)) embedding
        end
      else Ok embedding
  end.

Definition do_kge (edgelist : EdgeFrame) (design : gmap string (list Cell))
    (out : string) (model_config : gmap string Any) (return_patients : bool)
    (train_size validation_size : Q) : M Table :=
  let design_norm_df := fmap (map str) design in
  trained <- do_kge_train edgelist out model_config train_size validation_size ;;
  lift (do_kge_table design_norm_df (fst trained) (snd trained) return_patients).

End Orchestration.

End kge.

(** * [vp4p/classification/classify.py] *)

Module classify.

(** A keyword argument of an estimator constructor. *)
Inductive Keyword : Type :=
| KwStr (s : string)
| KwFloat (q : Q).

(** An sklearn estimator, as the constructor call that made it. *)
Inductive Constructor : Type :=
| LogisticRegression
| SVC
| RandomForestClassifier.

Record Estimator (Any : Type) : Type := mkEstimator {
  constructor : Constructor;
  positional : list Any;
  keywords : list (string * Keyword)
}.
Arguments mkEstimator {Any} _ _ _.
Arguments constructor {Any} _.
Arguments positional {Any} _.
Arguments keywords {Any} _.

(** The figure that seaborn saves. *)
Record Figure : Type := mkFigure {
  boxes : list (list Q);
  font_scale : Q;
  xlabel : string;
  ylabel : string;
  title : string;
  xticklabels : list string
}.

Definition not_found_message : string :=
  "The entered model was not found. Please check the model that was inputted".

Definition model_names : list string :=
  ["logistic_regression"; "elastic_net"; "svm"; "random_forrest"].

(** [needle in hay] on strings. *)
Fixpoint is_substring (needle hay : string) : bool :=
  String.prefix needle hay ||
  match hay with
  | EmptyString => false
  | String _ hay' => is_substring needle hay'
  end.

(** [str(l)] for a list of strings without quotes or backslashes. *)
Definition str_list (l : list string) : string :=
  "[" +:+ String.concat ", " (map (fun s => "'" +:+ s +:+ "'") l) +:+ "]".

Definition newline : string := String (ascii_of_nat 10) EmptyString.

Section Classification.

(** The positional arguments forwarded to the constructors, the feature
    matrix and the labels are opaque; [fold_scores] is the fitting and scoring
    that sklearn does for one estimator and one number of folds: per scorer
    name (and for the two timing entries) the scores of the folds. *)
Variable Any : Type.
Variable Data : Type.
Variable Labels : Type.
Variable fold_scores :
  Estimator Any -> Data -> Labels -> nat -> result (string -> list Q).

Definition get_classifier (model_name : string) (args : list Any)
  : result (Estimator Any) :=
  if bool_decide (model_name = "logistic_regression") then
    Ok (mkEstimator LogisticRegression args [("solver", KwStr "lbfgs")])
  else if bool_decide (model_name = "elastic_net") then
    Ok (mkEstimator LogisticRegression args
          [("penalty", KwStr "elasticnet"); ("l1_ratio", KwFloat (1 # 2));
           ("solver", KwStr "saga")])
  else if bool_decide (model_name = "svm") then
    Ok (mkEstimator SVC args [("gamma", KwStr "scale")])
  else if bool_decide (model_name = "random_forrest") then
    Ok (mkEstimator RandomForestClassifier args [])
  else
    Raise (ModuleNotFoundError not_found_message).

(** [sklearn.model_selection.cross_validate] with a list of scorers: the
    result dict has the keys [fit_time], [score_time] and [test_<scorer>]
    for every scorer of the list. *)
Definition cross_validate (model : Estimator Any) (data : Data) (labels : Labels)
    (cv : nat) (scoring : list string) : result (gmap string (list Q)) :=
  match fold_scores model data labels cv with
  | Raise e => Raise e
  | Ok scores =>
      Ok (foldl (fun d s => <["test_" +:+ s := scores s]> d)
            (<["score_time" := scores "score_time"]>
               (<["fit_time" := scores "fit_time"]> ∅))
            scoring)
  end.

(** The loop [for scores in scoring_metrics: data.append(list(cv_results[scores]))]. *)
Fixpoint collect (cv_results : gmap string (list Q)) (scoring_metrics : list string)
  : result (list (list Q)) :=
  match scoring_metrics with
  | [] => Ok []
  | scores :: rest =>
      match getitem cv_results scores with
      | Raise e => Raise e
      | Ok v =>
          match collect cv_results rest with
          | Raise e => Raise e
          | Ok data => Ok (v :: data)
          end
      end
  end.

(** The result is the returned dict together with the file written:
    [(outfile, figure)]. *)
Definition do_classification (data : Data) (labels : Labels) (model_name : string)
    (outfile : string) (title : option string) (args : list Any)
  : result (gmap string (list Q) * (string * Figure)) :=
  match get_classifier model_name args with
  | Raise e => Raise e
  | Ok model =>
      match cross_validate model data labels 10 ["roc_auc"; "accuracy"; "f1"] with
      | Raise e => Raise e
      | Ok cv_results =>
          let scoring_metrics := ["test_accuracy"; "test_f1_micro"; "test_roc_auc"] in
          match collect cv_results scoring_metrics with
          | Raise e => Raise e
          | Ok data =>
              let title :=
                match title with
                | Some t => if bool_decide (t = "") then None else Some t
                | None => None
                end in
              let title :=
                match title with
                | Some t => t
                | None => "Box Plot of Scoring Metrics: " +:+ str_list scoring_metrics
                            +:+ newline
                end in
              Ok (cv_results,
                  (outfile,
                   mkFigure data (12 # 10) "Scoring Metrics" "Score" title
                     scoring_metrics))
          end
      end
  end.

End Classification.

End classify.

(** * Definitions used by the statements *)

(** The keys of [model_config] that the interface description lists. *)
Definition recognized_keys : list string :=
  [ "model"; "model_kwargs"; "model_kwargs_ranges"; "loss_function";
    "loss_kwargs"; "loss_kwargs_ranges"; "regularizer"; "optimizer";
    "optimizer_kwargs"; "optimizer_kwargs_ranges"; "training_loop";
    "training_loop_kwargs"; "training_kwargs"; "training_kwargs_ranges";
    "negative_sampler"; "negative_sampler_kwargs";
    "negative_sampler_kwargs_ranges"; "stopper"; "stopper_kwargs";
    "evaluator"; "evaluator_kwargs"; "evaluation_kwargs"; "n_trials";
    "timeout"; "metric"; "direction"; "sampler"; "pruner" ].

(** An error that names the model it was asked for. *)
Definition names_model {A} (r : result A) (model_name : string) : Prop :=
  exists msg, r = Raise (ModuleNotFoundError msg)
              /\ classify.is_substring model_name msg = true.

(** A world in which nothing has been drawn or written yet. *)
Definition fresh (draws : list nat) : kge.World := kge.mkWorld draws [].

(** A computation that reads and advances the random state only: its result
    and the draws it leaves do not depend on the trace, which it does not
    change. *)
Definition rng_only {A} (m : kge.M A) : Prop :=
  forall w,
    m w = (fst (m (kge.mkWorld (kge.rng w) [])),
           kge.mkWorld (kge.rng (snd (m (kge.mkWorld (kge.rng w) [])))) (kge.trace w)).

(** A configuration with every recognized key, a library that always
    succeeds, and a trained model of two entities with two components. *)
Definition full_config : gmap string unit :=
  list_to_map (map (fun k => (k, tt)) recognized_keys).

Definition hpo_succeeds (training testing validation : string)
    (args : list (string * unit)) (files : list kge.Event) : result unit := Ok tt.

Definition two_entities : kge.Model :=
  kge.mkModel [("gene1", 1%nat); ("patient1", 0%nat)]
    (kge.mkArray [[1 # 2; 1 # 3]; [1 # 4; 1 # 5]] 2).

Definition pipeline_succeeds (path training testing validation : string)
    (files : list kge.Event) : result kge.Model := Ok two_entities.

Definition one_patient_design : gmap string (list Cell) :=
  {[ "FileName" := [Str "patient1"] ]}.



(** * The classifier wrapper *)

Section ClassifyFacts.
Import classify.

Context {Any Data Labels : Type}.
Variable fold_scores :
  Estimator Any -> Data -> Labels -> nat -> result (string -> list Q).

Lemma get_classifier_known (model_name : string) (args : list Any) :
  model_name ∈ model_names -> is_ok (get_classifier Any model_name args) = true.
Proof.
  unfold model_names, get_classifier. intros Hin.
  repeat (apply elem_of_cons in Hin as [-> | Hin]; [reflexivity |]).
  by apply elem_of_nil in Hin.
Qed.

Lemma get_classifier_unknown (model_name : string) (args : list Any) :
  model_name ∉ model_names ->
  get_classifier Any model_name args = Raise (ModuleNotFoundError not_found_message).
Proof.
  unfold model_names, get_classifier. intros Hnot.
  repeat case_bool_decide; try reflexivity; subst; exfalso; apply Hnot;
    set_solver.
Qed.

Lemma cross_validate_keys (model : Estimator Any) data labels cv cv_results :
  cross_validate Any Data Labels fold_scores model data labels cv
    ["roc_auc"; "accuracy"; "f1"] = Ok cv_results ->
  is_Some (cv_results !! "test_accuracy")
  /\ is_Some (cv_results !! "test_roc_auc")
  /\ is_Some (cv_results !! "test_f1")
  /\ cv_results !! "test_f1_micro" = None.
Proof.
  unfold cross_validate. destruct (fold_scores _ _ _ _) as [scores|]; [|done].
  intros [= <-]. cbn [foldl].
  split; [|split; [|split]].
  - rewrite lookup_insert_ne by done. rewrite lookup_insert_eq. by eexists.
  - rewrite !lookup_insert_ne by done. rewrite lookup_insert_eq. by eexists.
  - rewrite lookup_insert_eq. by eexists.
  - by rewrite !lookup_insert_ne, lookup_empty by done.
Qed.

(** C5, as the code has it: [get_classifier] returns a classifier for each of
    the four names [logistic_regression], [elastic_net], [svm] and
    [random_forrest]; for every other name it raises [ModuleNotFoundError]
    with one fixed message, the same for every name, and never falls back to
    a default classifier. *)
Theorem get_classifier_known_or_fixed_error (model_name : string) (args : list Any) :
  (model_name ∈ model_names -> is_ok (get_classifier Any model_name args) = true)
  /\ (model_name ∉ model_names ->
      get_classifier Any model_name args
      = Raise (ModuleNotFoundError not_found_message)).
Proof.
  split; [apply get_classifier_known | apply get_classifier_unknown].
Qed.

(** C6: with [model_name = 'svm'], [do_classification] never returns: when
    the cross-validation itself succeeds, reading the key [test_f1_micro]
    from its result raises [KeyError], because the scorer requested is [f1]
    and the key present is [test_f1]. *)
Theorem do_classification_svm_raises
    (data : Data) (labels : Labels) (outfile : string) (title : option string)
    (args : list Any) :
  do_classification Any Data Labels fold_scores data labels "svm" outfile title args
  = match fold_scores (mkEstimator SVC args [("gamma", KwStr "scale")])
            data labels 10 with
    | Ok _ => Raise (KeyError "test_f1_micro")
    | Raise e => Raise e
    end.
Proof.
  unfold do_classification. cbn [get_classifier bool_decide decide_rel].
  change (get_classifier Any "svm" args)
    with (Ok (mkEstimator SVC args [("gamma", KwStr "scale")])).
  cbv beta iota.
  destruct (cross_validate _ _ _ _ _ _ _ _ _) as [cv_results|e] eqn:Hcv.
  - pose proof (cross_validate_keys _ _ _ _ _ Hcv) as (Hacc & _ & _ & Hf1).
    unfold cross_validate in Hcv.
    destruct (fold_scores _ _ _ _); [|done].
    destruct Hacc as [acc Hacc]. cbn [collect]. unfold getitem.
    by rewrite Hacc, Hf1.
  - unfold cross_validate in Hcv.
    destruct (fold_scores _ _ _ _); [done|]. by injection Hcv as ->.
Qed.

End ClassifyFacts.

(** C5: the error for an unknown name does not name it. *)
Lemma get_classifier_error_omits_name :
  ~ names_model (classify.get_classifier unit "not_a_model" []) "not_a_model".
Proof.
  intros (msg & Heq & Hsub). vm_compute in Heq.
  injection Heq as <-. vm_compute in Hsub. discriminate.
Qed.

Lemma get_classifier_known_or_fixed_error_witness :
  is_ok (classify.get_classifier unit "svm" []) = true
  /\ classify.get_classifier unit "not_a_model" []
     = Raise (ModuleNotFoundError classify.not_found_message).
Proof.
  split.
  - apply (get_classifier_known_or_fixed_error (Any:=unit) "svm" []).
    unfold classify.model_names. set_solver.
  - apply (get_classifier_known_or_fixed_error (Any:=unit) "not_a_model" []).
    unfold classify.model_names. intros Hin.
    repeat (apply elem_of_cons in Hin as [Hin | Hin]; [discriminate Hin |]).
    by apply elem_of_nil in Hin.
Defined.

(** * Facts about the primitives *)

Section Primitives.
Import kge.

Lemma elem_of_map {A B} (f : A -> B) (l : list A) (y : B) :
  y ∈ map f l <-> exists x, y = f x /\ x ∈ l.
Proof. change (map f l) with (f <$> l). apply list_elem_of_fmap. Qed.

Lemma unique_by_elem_of {A K} `{EqDecision K} (key : A -> K) (l : list A) :
  forall seen x, x ∈ unique_by key seen l -> x ∈ l /\ key x ∉ seen.
Proof.
  induction l as [|y l IH]; intros seen x; cbn [unique_by].
  - by intros ?%elem_of_nil.
  - case_bool_decide as Hseen.
    + intros [Hx Hk]%IH. split; [by right | done].
    + intros [->|[Hx Hk]%IH]%elem_of_cons.
      * split; [by left | done].
      * split; [by right |]. intros Hin. apply Hk. by right.
Qed.

Lemma unique_by_keys {A K} `{EqDecision K} (key : A -> K) (l : list A) :
  forall seen k,
    k ∈ map key (unique_by key seen l) <-> k ∈ map key l /\ k ∉ seen.
Proof.
  induction l as [|y l IH]; intros seen k; cbn [unique_by map].
  - split; [by intros ?%elem_of_nil | by intros [?%elem_of_nil _]].
  - case_bool_decide as Hseen.
    + rewrite IH, elem_of_cons. split; [intros [? ?]; by auto |].
      intros [[-> | Hin] Hk]; [done | by split].
    + cbn [map]. rewrite !elem_of_cons, IH, elem_of_cons. split.
      * intros [-> | [Hin Hk]]; [by auto |]. split; [by right |].
        intros Hin'. apply Hk. by right.
      * intros [[-> | Hin] Hk]; [by left |].
        destruct (decide (k = key y)) as [-> | Hne]; [by left |].
        right. split; [done |]. by intros [? | ?].
Qed.

Lemma unique_by_NoDup {A K} `{EqDecision K} (key : A -> K) (l : list A) :
  forall seen, NoDup (map key (unique_by key seen l)).
Proof.
  induction l as [|y l IH]; intros seen; cbn [unique_by map].
  - constructor.
  - case_bool_decide as Hseen; [apply IH |].
    cbn [map]. constructor; [| apply IH].
    rewrite unique_by_keys. intros [_ Hk]. apply Hk. by left.
Qed.

Lemma unique_by_first {A K} `{EqDecision K} (key : A -> K) (pre post : list A) (x : A) :
  forall seen,
    key x ∉ seen -> key x ∉ map key pre ->
    x ∈ unique_by key seen (pre ++ x :: post).
Proof.
  induction pre as [|y pre IH]; intros seen Hseen Hpre; cbn [app unique_by].
  - rewrite bool_decide_eq_false_2 by done. by left.
  - cbn [map] in Hpre. apply not_elem_of_cons in Hpre as [Hne Hpre].
    case_bool_decide.
    + by apply IH.
    + right. apply IH; [| done]. by intros [? | ?]%elem_of_cons.
Qed.

Lemma insert_sorted_Permutation {A} (leb : A -> A -> bool) (x : A) (l : list A) :
  Permutation (insert_sorted leb x l) (x :: l).
Proof.
  induction l as [|y l IH]; cbn [insert_sorted]; [done |].
  destruct (leb x y); [done |]. rewrite IH. apply perm_swap.
Qed.

Lemma sorted_Permutation {A} (leb : A -> A -> bool) (l : list A) :
  Permutation (sorted leb l) l.
Proof.
  induction l as [|x l IH]; cbn; [done |].
  fold (sorted leb l). by rewrite insert_sorted_Permutation, IH.
Qed.

Lemma insert_sorted_Sorted {A} (leb : A -> A -> bool) (x : A) (l : list A) :
  (forall a b, leb a b = false -> leb b a = true) ->
  Sorted (fun a b => leb a b = true) l ->
  Sorted (fun a b => leb a b = true) (insert_sorted leb x l).
Proof.
  intros Htotal. induction l as [|y l IH]; intros Hs; cbn [insert_sorted].
  - repeat constructor.
  - destruct (leb x y) eqn:Hxy.
    + constructor; [done | by constructor].
    + apply Sorted_inv in Hs as [Hs Hhd]. constructor; [by apply IH |].
      destruct l as [|z l]; cbn [insert_sorted].
      * constructor. by apply Htotal.
      * destruct (leb x z); constructor; [by apply Htotal |].
        by apply HdRel_inv in Hhd.
Qed.

Lemma sorted_Sorted {A} (leb : A -> A -> bool) (l : list A) :
  (forall a b, leb a b = false -> leb b a = true) ->
  Sorted (fun a b => leb a b = true) (sorted leb l).
Proof.
  intros Htotal. induction l as [|x l IH]; cbn; [constructor |].
  fold (sorted leb l). by apply insert_sorted_Sorted.
Qed.

Lemma Sorted_mono {A} (R1 R2 : A -> A -> Prop) (l : list A) :
  (forall x y, R1 x y -> R2 x y) -> Sorted R1 l -> Sorted R2 l.
Proof.
  intros Himpl. induction 1 as [|x l Hs IH Hhd]; constructor; [done |].
  destruct Hhd; constructor. by apply Himpl.
Qed.

End Primitives.

(** * The orchestrator: configuration keys and the label column *)

Section OrchestratorFacts.
Import kge.

Context {Any : Type}.
Variable hpo_pipeline :
  string -> string -> string -> list (string * Any) -> list Event -> result unit.
Variable pipeline_from_path :
  string -> string -> string -> string -> list Event -> result Model.

Lemma hpo_keywords_recognized : map snd hpo_keywords = recognized_keys.
Proof. reflexivity. Qed.

Lemma keyword_arguments_missing (model_config : gmap string Any)
    (keys : list (string * string)) :
  (exists key, key ∈ map snd keys /\ model_config !! key = None) ->
  exists key', key' ∈ map snd keys /\ model_config !! key' = None
               /\ keyword_arguments Any model_config keys = Raise (KeyError key').
Proof.
  induction keys as [|[kw k] keys IH]; intros (key & Hin & Hnone).
  - by apply elem_of_nil in Hin.
  - cbn [keyword_arguments map snd]. unfold getitem.
    destruct (model_config !! k) as [v|] eqn:Hk.
    + cbn [map snd] in Hin. apply elem_of_cons in Hin as [-> | Hin]; [congruence |].
      destruct IH as (key' & Hin' & Hnone' & ->); [by exists key |].
      exists key'. split; [by right | done].
    + exists k. split; [by left | done].
Qed.

Lemma keyword_arguments_present (model_config : gmap string Any)
    (keys : list (string * string)) :
  (forall key, key ∈ map snd keys -> is_Some (model_config !! key)) ->
  exists args, keyword_arguments Any model_config keys = Ok args
               /\ map fst args = map fst keys.
Proof.
  induction keys as [|[kw k] keys IH]; intros Hall.
  - by exists [].
  - cbn [keyword_arguments]. unfold getitem.
    destruct (Hall k) as [v ->]; [by left |].
    destruct IH as (args & -> & Hargs).
    { intros key Hin. apply Hall. by right. }
    exists ((kw, v) :: args). split; [done |]. cbn [map fst]. by rewrite Hargs.
Qed.

(** With every key present the optimizer is called, with one keyword
    argument per key. *)
Lemma run_optimization_calls_optimizer (dataset : string * string * string)
    (model_config : gmap string Any) (out_dir : string) (w : World) :
  (forall key, key ∈ recognized_keys -> is_Some (model_config !! key)) ->
  exists r w',
    run_optimization Any hpo_pipeline dataset model_config out_dir w = (r, w')
    /\ HpoPipeline dataset.1.1 dataset.2 dataset.1.2 ∈ trace w'.
Proof.
  intros Hall. destruct dataset as [[tr va] te].
  destruct (keyword_arguments_present model_config hpo_keywords) as (args & Hargs & _).
  { by rewrite hpo_keywords_recognized. }
  unfold run_optimization, bind, lift, emit. rewrite Hargs. cbn [trace rng].
  destruct (hpo_pipeline tr te va args _) as [[]|e]; eexists _, _;
    (split; [reflexivity |]); cbn [trace fst snd]; set_solver.
Qed.

(** C10: when [model_config] omits any of the 28 recognized keys,
    [run_optimization] raises [KeyError] for a missing key and leaves the
    world as it was: the optimizer has not been called and nothing has been
    written. *)
Theorem run_optimization_missing_key (dataset : string * string * string)
    (model_config : gmap string Any) (out_dir : string) (w : World) (key : string) :
  key ∈ recognized_keys -> model_config !! key = None ->
  length recognized_keys = 28%nat
  /\ exists key', key' ∈ recognized_keys /\ model_config !! key' = None
       /\ run_optimization Any hpo_pipeline dataset model_config out_dir w
          = (Raise (KeyError key'), w).
Proof.
  intros Hin Hnone. split; [reflexivity |].
  destruct (keyword_arguments_missing model_config hpo_keywords)
    as (key' & Hin' & Hnone' & Hraise).
  { exists key. by rewrite hpo_keywords_recognized. }
  exists key'. rewrite hpo_keywords_recognized in Hin'.
  split; [done |]. split; [done |].
  destruct dataset as [[tr va] te].
  unfold run_optimization, bind, lift. by rewrite Hraise.
Qed.

(** C8, as the code has it: the [label] column is required; on an edgelist
    with only the columns [source], [relation] and [target], [do_kge] raises
    [KeyError] for [label] before it splits, writes or trains anything. *)
Theorem do_kge_requires_label_column (rows : list Row)
    (design : gmap string (list Cell)) (out : string)
    (model_config : gmap string Any) (return_patients : bool)
    (train_size validation_size : Q) (w : World) :
  do_kge Any hpo_pipeline pipeline_from_path (WithoutLabel rows) design out
    model_config return_patients train_size validation_size w
  = (Raise (KeyError "label"), w).
Proof. reflexivity. Qed.

End OrchestratorFacts.

Lemma run_optimization_missing_key_witness :
  length recognized_keys = 28%nat
  /\ exists key', key' ∈ recognized_keys
       /\ delete "timeout" full_config !! key' = None
       /\ kge.run_optimization unit hpo_succeeds ("tr", "va", "te")
            (delete "timeout" full_config) "out" (fresh [])
          = (Raise (KeyError key'), fresh []).
Proof.
  apply (run_optimization_missing_key hpo_succeeds ("tr", "va", "te")
           (delete "timeout" full_config) "out" (fresh []) "timeout").
  - apply (bool_decide_unpack ("timeout" ∈ recognized_keys)). vm_compute. exact I.
  - reflexivity.
Defined.

(** C8: the same edges are accepted with a [label] column, even one that is
    missing in every row, and rejected without it. *)
Lemma do_kge_without_label_fails :
  let e := kge.mkEdge "patient1" "has" "gene1" in
  is_ok (fst (kge.do_kge unit hpo_succeeds pipeline_succeeds
                (kge.WithLabel [kge.mkLRow 0 e NaN]) one_patient_design "out"
                full_config false (8 # 10) (1 # 10) (fresh [0; 0; 0]))) = true
  /\ fst (kge.do_kge unit hpo_succeeds pipeline_succeeds
            (kge.WithoutLabel [kge.mkRow 0 e]) one_patient_design "out"
            full_config false (8 # 10) (1 # 10) (fresh [0; 0; 0]))
     = Raise (KeyError "label").
Proof. split; vm_compute; reflexivity. Qed.

(** * The labeled-node mapping *)

Section LabelMapping.
Import kge.

Local Abbreviation source_of := (fun r : LRow => source (ledge r)).

Lemma label_mapping_other (nodes : list LRow) :
  forall (m : gmap string Cell) (s : string),
    s ∉ map source_of nodes ->
    foldl (fun m r => <[source (ledge r) := label r]> m) m nodes !! s = m !! s.
Proof.
  induction nodes as [|r nodes IH]; intros m s Hs; cbn [foldl]; [done |].
  cbn [map] in Hs. apply not_elem_of_cons in Hs as [Hne Hs].
  rewrite IH by done. by rewrite lookup_insert_ne.
Qed.

Lemma label_mapping_elem (nodes : list LRow) :
  forall (m : gmap string Cell) (r : LRow),
    NoDup (map source_of nodes) -> r ∈ nodes ->
    foldl (fun m r => <[source (ledge r) := label r]> m) m nodes
      !! source (ledge r) = Some (label r).
Proof.
  induction nodes as [|r0 nodes IH]; intros m r Hnd Hin; cbn [foldl].
  - by apply elem_of_nil in Hin.
  - cbn [map] in Hnd. apply NoDup_cons in Hnd as [Hfresh Hnd].
    apply elem_of_cons in Hin as [-> | Hin].
    + rewrite label_mapping_other by done. by rewrite lookup_insert_eq.
    + by apply IH.
Qed.

(** C3: the mapping that [do_kge] builds has an entry for a source exactly
    when some row with a non-missing label has that source; the entry is
    never a missing label; and a row with a non-missing label that is the
    first such row for its source determines the entry, whatever labels the
    later rows of that source carry. *)
Theorem label_mapping_first_wins (rows : list LRow) :
  let m := label_mapping_of (unique_nodes rows) in
  (forall s, is_Some (m !! s)
             <-> exists r, r ∈ rows /\ isna (label r) = false /\ source (ledge r) = s)
  /\ (forall s c, m !! s = Some c -> isna c = false)
  /\ (forall pre r post,
        rows = pre ++ r :: post ->
        isna (label r) = false ->
        (forall r', r' ∈ pre -> isna (label r') = false ->
                    source (ledge r') <> source (ledge r)) ->
        m !! source (ledge r) = Some (label r)).
Proof.
  intros m. subst m. unfold label_mapping_of, unique_nodes.
  set (labelled := filter (fun r => isna (label r) = false) rows).
  pose proof (unique_by_NoDup source_of labelled []) as Hnd.
  assert (Hfound : forall s, s ∈ map source_of (unique_by source_of [] labelled) ->
            exists r, r ∈ labelled /\ source (ledge r) = s
              /\ foldl (fun m r => <[source (ledge r) := label r]> m)
                   (∅ : gmap string Cell)
                   (unique_by source_of [] labelled) !! s = Some (label r)).
  { intros s (r & -> & Hr)%elem_of_map. exists r.
    split; [by apply unique_by_elem_of in Hr as [? _] |]. split; [done |].
    by apply label_mapping_elem. }
  assert (Hentry : forall s c,
            foldl (fun m r => <[source (ledge r) := label r]> m)
              (∅ : gmap string Cell)
              (unique_by source_of [] labelled) !! s = Some c ->
            exists r, r ∈ labelled /\ source (ledge r) = s /\ c = label r).
  { intros s c Hs.
    destruct (decide (s ∈ map source_of (unique_by source_of [] labelled)))
      as [Hin | Hout].
    - destruct (Hfound s Hin) as (r & Hr & Hsrc & Hlook). exists r.
      split; [done |]. split; [done |]. congruence.
    - rewrite label_mapping_other in Hs by done. by rewrite lookup_empty in Hs. }
  split; [| split].
  - intros s. split.
    + intros [c (r & Hr & Hsrc & _)%Hentry]. exists r.
      apply list_elem_of_filter in Hr as [Hna Hr]. done.
    + intros (r & Hr & Hna & <-).
      destruct (Hfound (source (ledge r))) as (r' & _ & _ & ->); [| by eexists].
      apply unique_by_keys. split; [| by intros ?%elem_of_nil].
      apply elem_of_map. exists r. split; [done |].
      apply list_elem_of_filter. done.
  - intros s c (r & Hr & _ & ->)%Hentry.
    by apply list_elem_of_filter in Hr as [Hna _].
  - intros pre r post -> Hna Hfirst.
    apply label_mapping_elem; [done |]. subst labelled.
    rewrite filter_app, filter_cons_True by done.
    apply unique_by_first; [by intros ?%elem_of_nil |].
    intros (r' & Heq & [Hna' Hr']%list_elem_of_filter)%elem_of_map.
    by apply (Hfirst r').
Qed.

End LabelMapping.

Lemma label_mapping_first_wins_witness :
  let r1 := kge.mkLRow 0 (kge.mkEdge "p1" "has" "g1") NaN in
  let r2 := kge.mkLRow 1 (kge.mkEdge "p1" "has" "g2") (Int 1) in
  let r3 := kge.mkLRow 2 (kge.mkEdge "p1" "has" "g3") (Int 0) in
  kge.label_mapping_of (kge.unique_nodes [r1; r2; r3]) !! "p1" = Some (Int 1).
Proof.
  intros r1 r2 r3.
  apply (proj2 (proj2 (label_mapping_first_wins [r1; r2; r3])) [r1] r2 [r3]).
  - reflexivity.
  - reflexivity.
  - intros r' Hin Hna. apply list_elem_of_singleton in Hin. subst r'.
    discriminate Hna.
Defined.

(** * The embedding table *)

Section EmbeddingTable.
Import kge.

Lemma embedding_columns_length (k : nat) : length (embedding_columns k) = k.
Proof. unfold embedding_columns. by rewrite length_map, length_seq. Qed.

Lemma embedding_columns_lookup (k i : nat) :
  (i < k)%nat ->
  embedding_columns k !! i
  = Some ("Component_" +:+ NilEmpty.string_of_uint (Nat.to_uint (S i))).
Proof.
  intros Hi. unfold embedding_columns.
  change (map ?f ?l) with (f <$> l).
  by rewrite list_lookup_fmap, lookup_seq_lt.
Qed.

Lemma embedding_index_Permutation (model : Model) :
  Permutation (embedding_index model) (map fst (entity_to_id model)).
Proof. apply sorted_Permutation. Qed.

Lemma embedding_index_Sorted (model : Model) :
  Sorted (fun x y => (id_of (entity_to_id model) x <= id_of (entity_to_id model) y)%nat)
    (embedding_index model).
Proof.
  unfold embedding_index.
  eapply Sorted_mono; [| apply sorted_Sorted].
  - intros x y Hxy. cbv beta in Hxy. by apply Nat.leb_le.
  - intros a b Hab. apply Nat.leb_le. apply Nat.leb_gt in Hab. lia.
Qed.

Lemma DataFrame_ok (data : ndarray) (cols idx : list string) (t : Table) :
  DataFrame data cols idx = Ok t ->
  columns t = cols /\ map name (rows t) = idx /\ length cols = shape1 data.
Proof.
  unfold DataFrame. case_bool_decide as Hshape; [| done].
  destruct Hshape as [Hlen Hcols]. intros [= <-]. cbn [columns rows].
  split; [done |]. split; [| done].
  revert Hlen. generalize (array_rows data) as vs.
  induction idx as [|n idx IH]; intros [|v vs] Hlen; cbn in *; try done.
  f_equal. apply IH. lia.
Qed.

Lemma at_set_label_names (i : string) (v : Cell) (t : Table) :
  map name (rows (at_set_label i v t)) = map name (rows t).
Proof.
  unfold at_set_label. cbn [rows]. rewrite map_map.
  apply map_ext. intros r. by case_bool_decide.
Qed.

Lemma at_set_label_columns (i : string) (v : Cell) (t : Table) :
  exists extra, columns (at_set_label i v t) = columns t ++ extra.
Proof.
  unfold at_set_label. cbn [columns]. case_bool_decide.
  - exists []. by rewrite app_nil_r.
  - by exists ["label"].
Qed.

Lemma attach_labels_ok (label_mapping : gmap string Cell) (idxs : list string) :
  forall t t',
    attach_labels label_mapping idxs t = Ok t' ->
    map name (rows t') = map name (rows t)
    /\ (exists extra, columns t' = columns t ++ extra)
    /\ (forall r', r' ∈ rows t' ->
          (name r' ∈ idxs /\ label_mapping !! name r' = Some (row_label r'))
          \/ ((name r' ∉ idxs) /\ r' ∈ rows t)).
Proof.
  induction idxs as [|i idxs IH]; intros t t'; cbn [attach_labels].
  - intros [= <-]. split; [done |]. split; [exists []; by rewrite app_nil_r |].
    intros r' Hr'. right. split; [by intros ?%elem_of_nil | done].
  - unfold getitem. destruct (label_mapping !! i) as [v|] eqn:Hi; [| done].
    intros (Hnames & [extra Hcols] & Hrows)%IH.
    split; [by rewrite Hnames, at_set_label_names |]. split.
    + destruct (at_set_label_columns i v t) as [extra' Hcols'].
      exists (extra' ++ extra). by rewrite Hcols, Hcols', <-app_assoc.
    + intros r' [[Hin Hlook] | [Hout Hr']]%Hrows.
      * left. split; [by right | done].
      * unfold at_set_label in Hr'. cbn [rows] in Hr'.
        apply elem_of_map in Hr' as (r & -> & Hr).
        case_bool_decide as Hname.
        -- left. cbn [name row_label]. rewrite Hname. split; [by left | done].
        -- right. split; [| done]. by intros [? | ?]%elem_of_cons.
Qed.

Lemma attach_labels_missing (label_mapping : gmap string Cell) (idxs : list string) :
  forall t,
    (exists i, i ∈ idxs /\ label_mapping !! i = None) ->
    exists i', i' ∈ idxs /\ label_mapping !! i' = None
               /\ attach_labels label_mapping idxs t = Raise (KeyError i').
Proof.
  induction idxs as [|j idxs IH]; intros t (i & Hin & Hnone).
  - by apply elem_of_nil in Hin.
  - cbn [attach_labels]. unfold getitem.
    destruct (label_mapping !! j) as [v|] eqn:Hj.
    + apply elem_of_cons in Hin as [-> | Hin]; [congruence |].
      destruct (IH (at_set_label j v t)) as (i' & Hin' & Hnone' & ->);
        [by exists i |].
        exists i'. split; [by right | done].
    + exists j. split; [by left | done].
Qed.

Lemma attach_labels_columns_kept (label_mapping : gmap string Cell) (idxs : list string) :
  forall t t',
    "label" ∈ columns t ->
    attach_labels label_mapping idxs t = Ok t' -> columns t' = columns t.
Proof.
  induction idxs as [|i idxs IH]; intros t t' Hlabel; cbn [attach_labels].
  - by intros [= <-].
  - unfold getitem. destruct (label_mapping !! i) as [v|]; [| done].
    intros Ht'. apply IH in Ht'; unfold at_set_label in *; cbn [columns] in *;
      by rewrite bool_decide_eq_true_2 in * by done.
Qed.

(** The loop adds at most the one column [label]. *)
Lemma attach_labels_columns (label_mapping : gmap string Cell) (idxs : list string)
    (t t' : Table) :
  attach_labels label_mapping idxs t = Ok t' ->
  columns t' = columns t \/ columns t' = columns t ++ ["label"].
Proof.
  destruct idxs as [|i idxs]; cbn [attach_labels]; [intros [= <-]; by left |].
  unfold getitem. destruct (label_mapping !! i) as [v|]; [| done].
  intros Ht'. destruct (decide ("label" ∈ columns t)) as [Hin | Hout].
  - left. apply attach_labels_columns_kept in Ht'.
    + rewrite Ht'. unfold at_set_label. cbn [columns].
      by rewrite bool_decide_eq_true_2.
    + unfold at_set_label. cbn [columns]. by rewrite bool_decide_eq_true_2.
  - right. apply attach_labels_columns_kept in Ht'.
    + rewrite Ht'. unfold at_set_label. cbn [columns].
      by rewrite bool_decide_eq_false_2.
    + unfold at_set_label. cbn [columns]. rewrite bool_decide_eq_false_2 by done.
      apply elem_of_app. right. by left.
Qed.

End EmbeddingTable.

(** * [do_kge]: the table it returns *)

Section DoKge.
Import kge.

Context {Any : Type}.
Variable hpo_pipeline :
  string -> string -> string -> list (string * Any) -> list Event -> result unit.
Variable pipeline_from_path :
  string -> string -> string -> string -> list Event -> result Model.

Local Abbreviation do_kge' := (do_kge Any hpo_pipeline pipeline_from_path).
Local Abbreviation do_kge_train' := (do_kge_train Any hpo_pipeline pipeline_from_path).

Lemma do_kge_inv edgelist design out model_config return_patients
    train_size validation_size (w w' : World) (t : Table) :
  do_kge' edgelist design out model_config return_patients train_size
    validation_size w = (Ok t, w') ->
  exists label_mapping best_model,
    do_kge_train' edgelist out model_config train_size validation_size w
    = (Ok (label_mapping, best_model), w')
    /\ do_kge_table (map str <$> design) label_mapping best_model return_patients
       = Ok t.
Proof.
  unfold do_kge, bind, lift.
  destruct (do_kge_train _ _ _ _ _ _ _ _ w) as [[[lm model]|e] w1]; [| done].
  cbn [fst snd]. intros [= Htable <-]. by exists lm, model.
Qed.

Lemma do_kge_trained edgelist design out model_config return_patients
    train_size validation_size (w w' : World) label_mapping best_model :
  do_kge_train' edgelist out model_config train_size validation_size w
  = (Ok (label_mapping, best_model), w') ->
  do_kge' edgelist design out model_config return_patients train_size
    validation_size w
  = (do_kge_table (map str <$> design) label_mapping best_model return_patients, w').
Proof. unfold do_kge, bind, lift. by intros ->. Qed.

Lemma filter_names (file_names : list string) (trows : list TRow) :
  map name (filter (fun r => name r ∈ file_names) trows)
  = filter (fun n => n ∈ file_names) (map name trows).
Proof.
  induction trows as [|r trows IH]; [done |].
  cbn [map]. rewrite !filter_cons. by destruct (decide _); cbn [map]; rewrite IH.
Qed.

Lemma attach_labels_present (label_mapping : gmap string Cell) (idxs : list string) :
  forall t,
    (forall i, i ∈ idxs -> is_Some (label_mapping !! i)) ->
    exists t', attach_labels label_mapping idxs t = Ok t'.
Proof.
  induction idxs as [|i idxs IH]; intros t Hall; cbn [attach_labels].
  - by exists t.
  - unfold getitem. destruct (Hall i) as [v ->]; [by left |].
    apply IH. intros j Hj. apply Hall. by right.
Qed.

Lemma DataFrame_shape (model : Model) :
  length (entity_to_id model) = length (array_rows (_model_to_numpy model)) ->
  exists table,
    DataFrame (_model_to_numpy model)
      (embedding_columns (shape1 (_model_to_numpy model))) (embedding_index model)
    = Ok table.
Proof.
  intros Hlen. unfold DataFrame. rewrite bool_decide_eq_true_2; [by eexists |].
  split; [| apply embedding_columns_length].
  by rewrite (Permutation_length (embedding_index_Permutation model)), length_map.
Qed.

(** C7, as the code has it: the table that [do_kge] returns is built from
    the trained model. Its index is the list of the model's entity names
    sorted by the model's name-to-index assignment (a rearrangement of the
    names in which the assigned indices never decrease), restricted to the
    design's file names when [return_patients] is set. Its columns are
    [Component_1] to [Component_k], for [k] the second dimension of the
    embedding matrix, followed by the column [label] only when
    [return_patients] is set. *)
Theorem do_kge_index_and_columns edgelist design out model_config return_patients
    train_size validation_size (w w' : World) (t : Table) :
  do_kge' edgelist design out model_config return_patients train_size
    validation_size w = (Ok t, w') ->
  exists label_mapping best_model,
    do_kge_train' edgelist out model_config train_size validation_size w
    = (Ok (label_mapping, best_model), w')
    /\ Permutation (embedding_index best_model) (map fst (entity_to_id best_model))
    /\ Sorted (fun x y => (id_of (entity_to_id best_model) x
                           <= id_of (entity_to_id best_model) y)%nat)
         (embedding_index best_model)
    /\ (if return_patients
        then exists file_names,
               (map str <$> design) !! "FileName" = Some file_names
               /\ map name (rows t)
                  = filter (fun n => n ∈ file_names) (embedding_index best_model)
        else map name (rows t) = embedding_index best_model)
    /\ (let k := shape1 (_model_to_numpy best_model) in
        (columns t = embedding_columns k
         \/ (return_patients = true
             /\ columns t = embedding_columns k ++ ["label"]))
        /\ (forall i, (i < k)%nat ->
              columns t !! i
              = Some ("Component_" +:+ NilEmpty.string_of_uint (Nat.to_uint (S i))))).
Proof.
  intros (lm & model & Htrain & Htable)%do_kge_inv. exists lm, model.
  split; [done |]. split; [apply embedding_index_Permutation |].
  split; [apply embedding_index_Sorted |].
  unfold do_kge_table in Htable.
  destruct (DataFrame _ _ _) as [table|] eqn:Hdf; [| done].
  apply DataFrame_ok in Hdf as (Hcols & Hnames & _).
  assert (Hprefix : forall extra i,
            (i < shape1 (_model_to_numpy model))%nat ->
            (embedding_columns (shape1 (_model_to_numpy model)) ++ extra) !! i
            = Some ("Component_" +:+ NilEmpty.string_of_uint (Nat.to_uint (S i)))).
  { intros extra i Hi.
    rewrite lookup_app_l by (by rewrite embedding_columns_length).
    by apply embedding_columns_lookup. }
  destruct return_patients.
  - unfold getitem in Htable.
    destruct ((map str <$> design) !! "FileName") as [file_names|] eqn:Hfn; [| done].
    pose proof (attach_labels_columns _ _ _ _ Htable) as Hcols'.
    apply attach_labels_ok in Htable as (Hnames' & _ & _).
    cbn [rows columns] in Hnames', Hcols'. rewrite filter_names, Hnames in Hnames'.
    split; [by exists file_names |]. cbv zeta. rewrite Hcols in Hcols'.
    destruct Hcols' as [-> | ->]; (split; [by auto |]).
    + intros i Hi. by apply embedding_columns_lookup.
    + apply Hprefix.
  - injection Htable as <-. split; [done |]. cbv zeta. rewrite Hcols. split.
    + by left.
    + intros i Hi. by apply embedding_columns_lookup.
Qed.

(** C9: with [return_patients] set, once the model is trained and the design
    has a [FileName] column, [do_kge] keeps the entities whose name is among
    the file names. If one of them has no entry in the labeled-node mapping
    the call raises [KeyError] for such a name; it never returns a table with
    a label left undefined. Otherwise it returns the table restricted to
    those entities, every row carrying the label that the mapping gives. *)
Theorem do_kge_return_patients edgelist design out model_config
    train_size validation_size (w w1 : World) label_mapping best_model file_names :
  do_kge_train' edgelist out model_config train_size validation_size w
  = (Ok (label_mapping, best_model), w1) ->
  (map str <$> design) !! "FileName" = Some file_names ->
  length (entity_to_id best_model) = length (array_rows (_model_to_numpy best_model)) ->
  let retained := filter (fun n => n ∈ file_names) (embedding_index best_model) in
  ((exists i, i ∈ retained /\ label_mapping !! i = None) ->
   exists i', i' ∈ retained /\ label_mapping !! i' = None
     /\ do_kge' edgelist design out model_config true train_size validation_size w
        = (Raise (KeyError i'), w1))
  /\ ((forall i, i ∈ retained -> is_Some (label_mapping !! i)) ->
      exists t,
        do_kge' edgelist design out model_config true train_size validation_size w
        = (Ok t, w1)
        /\ map name (rows t) = retained
        /\ (forall r, r ∈ rows t -> label_mapping !! name r = Some (row_label r))).
Proof.
  intros Htrain Hfn Hshape retained.
  rewrite (do_kge_trained _ design _ _ true _ _ _ _ _ _ Htrain).
  unfold do_kge_table.
  destruct (DataFrame_shape best_model Hshape) as [table Hdf]. rewrite Hdf.
  apply DataFrame_ok in Hdf as (_ & Hnames & _).
  unfold getitem. rewrite Hfn. cbn [rows columns].
  assert (Hidx : map name (filter (fun r => name r ∈ file_names) (rows table))
                 = retained).
  { by rewrite filter_names, Hnames. }
  rewrite Hidx. split.
  - intros Hmissing.
    destruct (attach_labels_missing label_mapping retained
                (mkTable (columns table)
                   (filter (fun r => name r ∈ file_names) (rows table))) Hmissing)
      as (i' & Hin & Hnone & ->).
    by exists i'.
  - intros Hall.
    destruct (attach_labels_present label_mapping retained
                (mkTable (columns table)
                   (filter (fun r => name r ∈ file_names) (rows table))) Hall)
      as [t Ht].
    rewrite Ht. exists t. split; [done |].
    apply attach_labels_ok in Ht as (Hnames' & _ & Hrows). cbn [rows] in *.
    split; [by rewrite Hnames', Hidx |].
    intros r [[_ Hlook] | [Hout Hr]]%Hrows; [done |].
    exfalso. apply Hout. rewrite <-Hidx. apply elem_of_map. by exists r.
Qed.

End DoKge.

Lemma do_kge_index_and_columns_witness :
  let edgelist :=
    kge.WithLabel [kge.mkLRow 0 (kge.mkEdge "patient1" "has" "gene1") (Int 1)] in
  exists t w',
    kge.do_kge unit hpo_succeeds pipeline_succeeds edgelist one_patient_design
      "out" full_config false (8 # 10) (1 # 10) (fresh [0; 0; 0]) = (Ok t, w')
    /\ exists label_mapping best_model,
        kge.do_kge_train unit hpo_succeeds pipeline_succeeds edgelist "out"
          full_config (8 # 10) (1 # 10) (fresh [0; 0; 0])
        = (Ok (label_mapping, best_model), w')
        /\ Permutation (kge.embedding_index best_model)
             (map fst (kge.entity_to_id best_model))
        /\ Sorted (fun x y => (kge.id_of (kge.entity_to_id best_model) x
                               <= kge.id_of (kge.entity_to_id best_model) y)%nat)
             (kge.embedding_index best_model)
        /\ map kge.name (kge.rows t) = kge.embedding_index best_model
        /\ (let k := kge.shape1 (kge._model_to_numpy best_model) in
            (kge.columns t = kge.embedding_columns k
             \/ (false = true
                 /\ kge.columns t = kge.embedding_columns k ++ ["label"]))
            /\ (forall i, (i < k)%nat ->
                  kge.columns t !! i
                  = Some ("Component_"
                          +:+ NilEmpty.string_of_uint (Nat.to_uint (S i))))).
Proof.
  intros edgelist. eexists _, _. split; [vm_compute; reflexivity |].
  apply (do_kge_index_and_columns hpo_succeeds pipeline_succeeds edgelist
           one_patient_design "out" full_config false (8 # 10) (1 # 10)
           (fresh [0; 0; 0])).
  vm_compute. reflexivity.
Defined.

(** C7: with [return_patients] set and a patient retained, the returned
    table has a third column, [label], after its two components. *)
Lemma do_kge_returns_label_column :
  let edgelist :=
    kge.WithLabel [kge.mkLRow 0 (kge.mkEdge "patient1" "has" "gene1") (Int 1)] in
  exists t w',
    kge.do_kge unit hpo_succeeds pipeline_succeeds edgelist one_patient_design
      "out" full_config true (8 # 10) (1 # 10) (fresh [0; 0; 0]) = (Ok t, w')
    /\ kge.shape1 (kge._model_to_numpy two_entities) = 2%nat
    /\ kge.columns t = ["Component_1"; "Component_2"; "label"]
    /\ kge.columns t <> kge.embedding_columns 2.
Proof.
  intros edgelist. eexists _, _. split; [vm_compute; reflexivity |].
  split; [reflexivity |]. split; [reflexivity | discriminate].
Qed.

Lemma do_kge_return_patients_witness :
  let unlabelled :=
    kge.WithLabel [kge.mkLRow 0 (kge.mkEdge "patient1" "has" "gene1") NaN] in
  let labelled :=
    kge.WithLabel [kge.mkLRow 0 (kge.mkEdge "patient1" "has" "gene1") (Int 1)] in
  let trained edgelist :=
    kge.do_kge_train unit hpo_succeeds pipeline_succeeds edgelist "out"
      full_config (8 # 10) (1 # 10) (fresh [0; 0; 0]) in
  let run edgelist :=
    kge.do_kge unit hpo_succeeds pipeline_succeeds edgelist one_patient_design
      "out" full_config true (8 # 10) (1 # 10) (fresh [0; 0; 0]) in
  let retained :=
    filter (fun n => n ∈ ["patient1"]) (kge.embedding_index two_entities) in
  (trained unlabelled = (Ok (∅, two_entities), snd (trained unlabelled))
   /\ "patient1" ∈ retained
   /\ exists i', i' ∈ retained /\ (∅ : gmap string Cell) !! i' = None
        /\ run unlabelled = (Raise (KeyError i'), snd (trained unlabelled)))
  /\ (trained labelled
      = (Ok ({[ "patient1" := Int 1 ]}, two_entities), snd (trained labelled))
      /\ exists t,
           run labelled = (Ok t, snd (trained labelled))
           /\ map kge.name (kge.rows t) = retained
           /\ (forall r, r ∈ kge.rows t ->
                 ({[ "patient1" := Int 1 ]} : gmap string Cell) !! kge.name r
                 = Some (kge.row_label r))).
Proof.
  intros unlabelled labelled trained run retained.
  assert (Hin : forall i, i ∈ retained -> i = "patient1").
  { intros i Hi. apply list_elem_of_filter in Hi as [Hi _].
    by apply list_elem_of_singleton in Hi. }
  assert (Hpatient : "patient1" ∈ retained)
    by (apply (bool_decide_unpack ("patient1" ∈ retained)); vm_compute; exact I).
  split.
  - assert (Htrain : trained unlabelled
                     = (Ok (∅, two_entities), snd (trained unlabelled)))
      by (vm_compute; reflexivity).
    split; [exact Htrain |]. split; [exact Hpatient |].
    apply (do_kge_return_patients hpo_succeeds pipeline_succeeds unlabelled
             one_patient_design "out" full_config (8 # 10) (1 # 10)
             (fresh [0; 0; 0]) (snd (trained unlabelled)) ∅ two_entities
             ["patient1"] Htrain eq_refl eq_refl).
    exists "patient1". split; [exact Hpatient | reflexivity].
  - assert (Htrain : trained labelled
                     = (Ok ({[ "patient1" := Int 1 ]}, two_entities),
                        snd (trained labelled)))
      by (vm_compute; reflexivity).
    split; [exact Htrain |].
    apply (do_kge_return_patients hpo_succeeds pipeline_succeeds labelled
             one_patient_design "out" full_config (8 # 10) (1 # 10)
             (fresh [0; 0; 0]) (snd (trained labelled))
             {[ "patient1" := Int 1 ]} two_entities ["patient1"]
             Htrain eq_refl eq_refl).
    intros i ->%Hin. by eexists.
Defined.

(** * The splitter and the random state *)

Section RandomState.
Import kge.

Lemma rng_only_ret {A} (a : A) : rng_only (ret a).
Proof. by intros [draws tr]. Qed.

Lemma rng_only_raise {A} (e : Exn) : rng_only (raise (A:=A) e).
Proof. by intros [draws tr]. Qed.

Lemma rng_only_lift {A} (r : result A) : rng_only (lift r).
Proof. by intros [draws tr]. Qed.

Lemma rng_only_bind {A B} (m : M A) (k : A -> M B) :
  rng_only m -> (forall a, rng_only (k a)) -> rng_only (bind m k).
Proof.
  intros Hm Hk w. unfold bind. rewrite (Hm w).
  destruct (m (mkWorld (rng w) [])) as [[a|e] w1]; cbn [fst snd]; [| done].
  rewrite (Hk a (mkWorld (rng w1) (trace w))). cbn [rng trace].
  by rewrite (Hk a w1).
Qed.

Lemma rng_only_choice (n size : nat) : rng_only (choice n size).
Proof.
  intros [draws tr]. unfold choice. cbn [rng trace].
  by destruct (choice_from (seq 0 n) size draws).
Qed.

Lemma rng_only_sample (frac : Q) (df : list Row) : rng_only (sample frac df).
Proof.
  unfold sample. destruct (negb _); [apply rng_only_raise |].
  destruct (negb _); [apply rng_only_raise |].
  apply rng_only_bind; [apply rng_only_choice |]. intros; apply rng_only_ret.
Qed.

Lemma rng_only_split_round (frac_size : Q) (relations : list string) :
  forall data frames, rng_only (split_round frac_size relations data frames).
Proof.
  induction relations as [|rel relations IH]; intros data frames; cbn [split_round].
  - apply rng_only_ret.
  - apply rng_only_bind; [apply rng_only_sample |]. intros temp. apply IH.
Qed.

Lemma rng_only_split_rounds (fracs : list Q) (relations : list string) :
  forall data split, rng_only (split_rounds fracs relations data split).
Proof.
  induction fracs as [|frac fracs IH]; intros data split; cbn [split_rounds].
  - apply rng_only_ret.
  - apply rng_only_bind; [apply rng_only_split_round |]. intros st.
    apply rng_only_bind; [apply rng_only_lift |]. intros part. apply IH.
Qed.

Lemma rng_only_weighted_splitter (edgelist : list Row) (train_size validation_size : Q) :
  rng_only (_weighted_splitter edgelist train_size validation_size).
Proof.
  unfold _weighted_splitter. destruct (Qeq_bool _ _); [apply rng_only_raise |].
  apply rng_only_split_rounds.
Qed.

Lemma unique_relations_Sorted (edgelist : list Row) :
  Sorted (fun a b => String.leb a b = true) (unique_relations edgelist).
Proof.
  apply sorted_Sorted. intros a b Hab.
  destruct (String.leb_total a b) as [H | H]; [congruence | done].
Qed.

Lemma unique_relations_NoDup (edgelist : list Row) :
  NoDup (unique_relations edgelist).
Proof.
  unfold unique_relations. rewrite (sorted_Permutation String.leb).
  pose proof (unique_by_NoDup (@id string) (map (fun r => relation (edge r)) edgelist) [])
    as Hnd.
  by rewrite map_id in Hnd.
Qed.

Lemma elem_of_unique_relations (edgelist : list Row) (rel : string) :
  rel ∈ unique_relations edgelist <-> exists r, r ∈ edgelist /\ relation (edge r) = rel.
Proof.
  unfold unique_relations. rewrite (sorted_Permutation String.leb).
  pose proof (unique_by_keys (@id string)
                (map (fun r => relation (edge r)) edgelist) [] rel) as Hkeys.
  rewrite !map_id in Hkeys. rewrite Hkeys, elem_of_map. split.
  - intros [(r & -> & Hr) _]. by exists r.
  - intros (r & Hr & <-). split; [by exists r | by intros ?%elem_of_nil].
Qed.

(** C4: two runs of [_weighted_splitter] on the same edgelist and fractions,
    started from the same random state, return the same three frames (or the
    same error) and leave the same random state, whatever else differs
    between the two worlds; the relation types are visited in increasing
    order, each once, and they are the relation types of the edgelist. *)
Theorem weighted_splitter_reproducible (edgelist : list Row)
    (train_size validation_size : Q) (w1 w2 : World) :
  rng w1 = rng w2 ->
  fst (_weighted_splitter edgelist train_size validation_size w1)
  = fst (_weighted_splitter edgelist train_size validation_size w2)
  /\ rng (snd (_weighted_splitter edgelist train_size validation_size w1))
     = rng (snd (_weighted_splitter edgelist train_size validation_size w2))
  /\ Sorted (fun a b => String.leb a b = true) (unique_relations edgelist)
  /\ NoDup (unique_relations edgelist)
  /\ (forall rel, rel ∈ unique_relations edgelist
                  <-> exists r, r ∈ edgelist /\ relation (edge r) = rel).
Proof.
  intros Hseed.
  rewrite (rng_only_weighted_splitter edgelist train_size validation_size w1).
  rewrite (rng_only_weighted_splitter edgelist train_size validation_size w2).
  cbn [fst snd rng]. rewrite Hseed.
  split; [done |]. split; [done |].
  split; [apply unique_relations_Sorted |].
  split; [apply unique_relations_NoDup |].
  apply elem_of_unique_relations.
Qed.

End RandomState.

Lemma weighted_splitter_reproducible_witness :
  let edgelist :=
    [kge.mkRow 0 (kge.mkEdge "p1" "has" "g1"); kge.mkRow 1 (kge.mkEdge "p2" "has" "g1");
     kge.mkRow 2 (kge.mkEdge "g1" "binds" "g2")] in
  let w1 := kge.mkWorld [3; 1; 4; 1; 5] [] in
  let w2 := kge.mkWorld [3; 1; 4; 1; 5] [kge.EnsureDir "out"] in
  kge.rng w1 = kge.rng w2
  /\ fst (kge._weighted_splitter edgelist (8 # 10) (1 # 10) w1)
     = fst (kge._weighted_splitter edgelist (8 # 10) (1 # 10) w2)
  /\ kge.rng (snd (kge._weighted_splitter edgelist (8 # 10) (1 # 10) w1))
     = kge.rng (snd (kge._weighted_splitter edgelist (8 # 10) (1 # 10) w2))
  /\ Sorted (fun a b => String.leb a b = true) (kge.unique_relations edgelist)
  /\ NoDup (kge.unique_relations edgelist)
  /\ (forall rel, rel ∈ kge.unique_relations edgelist
                  <-> exists r, r ∈ edgelist /\ kge.relation (kge.edge r) = rel).
Proof.
  intros edgelist w1 w2. split; [reflexivity |].
  apply (weighted_splitter_reproducible edgelist (8 # 10) (1 # 10) w1 w2).
  reflexivity.
Defined.

(** * The splitter on a frame with distinct row labels *)

Section Sampling.
Import kge.

Lemma choice_from_spec (size : nat) :
  forall (pool draws : list nat),
    exists rest,
      pool ≡ₚ (choice_from pool size draws).1 ++ rest
      /\ ((length pool <= size)%nat -> rest = []).
Proof.
  induction size as [|size IH]; intros pool draws; cbn [choice_from].
  - exists pool. split; [done |]. intros Hlen. destruct pool; [done | cbn in Hlen; lia].
  - destruct pool as [|p pool]; [by exists [] |].
    set (i := (hd 0%nat draws mod length (p :: pool))%nat).
    assert (Hi : (i < length (p :: pool))%nat).
    { apply Nat.mod_upper_bound. cbn. lia. }
    destruct (lookup_lt_is_Some_2 _ _ Hi) as [x Hx].
    rewrite (nth_lookup_Some _ _ 0%nat x Hx).
    destruct (IH (delete i (p :: pool)) (tl draws)) as (rest & Hperm & Hall).
    destruct (choice_from (delete i (p :: pool)) size (tl draws)) as [picked draws'].
    cbn [fst] in *. exists rest. split.
    + rewrite (delete_Permutation _ _ _ Hx). cbn [app]. by rewrite Hperm.
    + intros Hlen. apply Hall.
      rewrite length_delete by (by eexists). cbn [length] in *. lia.
Qed.

Lemma take_seq_app (df pre : list Row) :
  take (seq (length pre) (length df)) (pre ++ df) = df.
Proof.
  revert pre. induction df as [|r df IH]; intros pre; [done |].
  cbn [length seq]. unfold take in *. cbn -[lookup].
  rewrite list_lookup_middle by done. f_equal.
  specialize (IH (pre ++ [r])). rewrite length_app, <-app_assoc in IH.
  cbn [length app] in IH. by rewrite Nat.add_1_r in IH.
Qed.

Lemma take_seq (df : list Row) : take (seq 0 (length df)) df = df.
Proof. apply (take_seq_app df []). Qed.

Lemma py_round_integer (q : Q) (z : Z) : (q == inject_Z z)%Q -> py_round q = z.
Proof.
  intros Hq. unfold py_round. rewrite (Qfloor_comp q (inject_Z z) Hq), Qfloor_Z.
  assert (Hzero : (q - inject_Z z == 0)%Q).
  { unfold Qminus. rewrite Hq. apply Qplus_opp_r. }
  assert (Hlt : (q - inject_Z z < 1 # 2)%Q).
  { eapply Qle_lt_trans; [apply Qle_lteq; right; exact Hzero | reflexivity]. }
  assert (Hc : (q - inject_Z z ?= 1 # 2)%Q = Lt) by (by apply Qlt_alt).
  by rewrite Hc.
Qed.

(** A sample is a part of the frame; with [frac = 1] it is the whole frame. *)
Lemma sample_spec (frac : Q) (df : list Row) (w : World) :
  Qle_bool frac 1 = true -> Qle_bool 0 frac = true ->
  exists temp rest w',
    sample frac df w = (Ok temp, w')
    /\ df ≡ₚ temp ++ rest
    /\ ((frac == 1)%Q -> rest = []).
Proof.
  intros Hle Hge. unfold sample, bind, ret, choice. rewrite Hle, Hge. cbn [negb].
  set (size := Z.to_nat (py_round (frac * inject_Z (Z.of_nat (length df)))%Q)).
  destruct (choice_from_spec size (seq 0 (length df)) (rng w))
    as (rest & Hperm & Hall).
  destruct (choice_from (seq 0 (length df)) size (rng w)) as [positions draws'].
  cbn [fst] in Hperm.
  exists (take positions df), (take rest df), (mkWorld draws' (trace w)).
  split; [done |]. split.
  - rewrite <-(take_seq df) at 1. unfold take. by rewrite Hperm, omap_app.
  - intros Hfrac. rewrite Hall; [done |].
    rewrite length_seq. subst size.
    rewrite (py_round_integer _ (Z.of_nat (length df))); [lia |].
    rewrite Hfrac. apply Qmult_1_l.
Qed.

Lemma NoDup_map_inj {A B} (f : A -> B) (l : list A) (x y : A) :
  NoDup (map f l) -> x ∈ l -> y ∈ l -> f x = f y -> x = y.
Proof.
  induction l as [|a l IH]; intros Hnd Hx Hy Hxy; [by apply elem_of_nil in Hx |].
  cbn [map] in Hnd. apply NoDup_cons in Hnd as [Hfresh Hnd].
  apply elem_of_cons in Hx as [-> | Hx]; apply elem_of_cons in Hy as [-> | Hy].
  - done.
  - exfalso. apply Hfresh. apply elem_of_map. exists y. by rewrite Hxy.
  - exfalso. apply Hfresh. apply elem_of_map. exists x. by rewrite Hxy.
  - by apply IH.
Qed.

(** Removing the sampled rows by label removes exactly them, when the
    labels are distinct. *)
Lemma drop_index_isin_Permutation (data temp : list Row) :
  NoDup (map index data) -> NoDup temp -> (forall r, r ∈ temp -> r ∈ data) ->
  data ≡ₚ temp ++ drop_index_isin temp data.
Proof.
  intros Hlabels Htemp Hsub. unfold drop_index_isin.
  rewrite <-(filter_app_complement (fun r => index r ∈ map index temp) data) at 1.
  apply Permutation_app; [| done].
  apply NoDup_Permutation; [| done |].
  - apply NoDup_filter. by apply (NoDup_fmap_1 index).
  - intros r. rewrite list_elem_of_filter, elem_of_map. split.
    + intros [(r' & Hidx & Hr') Hr].
      by rewrite (NoDup_map_inj index data r r' Hlabels Hr (Hsub _ Hr') Hidx).
    + intros Hr. split; [by exists r | by apply Hsub].
Qed.

End Sampling.

Section Partition.
Import kge.

Lemma split_round_spec (frac : Q) (relations : list string) :
  Qle_bool frac 1 = true -> Qle_bool 0 frac = true ->
  forall (data : list Row) (frames : list (list Row)) (w : World),
    NoDup (map index data) ->
    exists data' new w',
      split_round frac relations data frames w = (Ok (data', frames ++ new), w')
      /\ data ≡ₚ concat new ++ data'
      /\ length new = length relations
      /\ ((frac == 1)%Q ->
          forall r, r ∈ data' -> relation (edge r) ∉ relations).
Proof.
  intros Hle Hge.
  induction relations as [|rel relations IH]; intros data frames w Hlabels.
  - exists data, [], w. rewrite app_nil_r. repeat split; try done.
    intros _ r _. by intros ?%elem_of_nil.
  - cbn [split_round]. unfold bind.
    set (sub := filter (fun r => relation (edge r) = rel) data).
    destruct (sample_spec frac sub w Hle Hge) as (temp & rest & w1 & -> & Hperm & Hall).
    assert (Hdata : NoDup data) by (by apply (NoDup_fmap_1 index)).
    assert (Htemp : NoDup temp).
    { assert (Hnd : NoDup (temp ++ rest)) by (rewrite <-Hperm; by apply NoDup_filter).
      by apply NoDup_app in Hnd as [? _]. }
    assert (Hsub : forall r, r ∈ temp -> r ∈ data).
    { intros r Hr.
      assert (Hin : r ∈ sub) by (rewrite Hperm; apply elem_of_app; by left).
      by apply list_elem_of_filter in Hin as [_ ?]. }
    pose proof (drop_index_isin_Permutation data temp Hlabels Htemp Hsub) as Hstep.
    assert (Hlabels1 : NoDup (map index (drop_index_isin temp data))).
    { change (NoDup (index <$> data)) in Hlabels. rewrite Hstep, fmap_app in Hlabels.
      by apply NoDup_app in Hlabels as (_ & _ & ?). }
    destruct (IH (drop_index_isin temp data) (frames ++ [temp]) w1 Hlabels1)
      as (data' & new & w' & -> & Hperm' & Hlen & Hall').
    exists data', (temp :: new), w'. split; [by rewrite <-app_assoc |].
    split; [cbn [concat]; by rewrite <-app_assoc, <-Hperm' |].
    split; [cbn [length]; by rewrite Hlen |].
    intros Hfrac r Hr. apply not_elem_of_cons. split; [| by apply Hall'].
    intros Hrel.
    assert (Hr1 : r ∈ drop_index_isin temp data)
      by (rewrite Hperm'; apply elem_of_app; by right).
    apply list_elem_of_filter in Hr1 as [Hout Hr0]. apply Hout.
    apply elem_of_map. exists r. split; [done |].
    assert (Hin : r ∈ sub) by (by apply list_elem_of_filter).
    rewrite Hperm, (Hall Hfrac), app_nil_r in Hin. done.
Qed.

Lemma unique_by_sublist {A K} `{EqDecision K} (key : A -> K) (l : list A) :
  forall seen, sublist (unique_by key seen l) l.
Proof.
  induction l as [|x l IH]; intros seen; cbn [unique_by]; [done |].
  case_bool_decide; [by apply sublist_cons | by apply sublist_skip].
Qed.

Lemma edge_relabel (edges : list Edge) : map edge (relabel edges) = edges.
Proof.
  unfold relabel. change (map edge ?l) with (edge <$> l).
  rewrite fmap_imap. unfold compose. cbn [edge].
  induction edges as [|e edges IH] using rev_ind; [done |].
  rewrite imap_app. cbn. by rewrite IH.
Qed.

Lemma valid_fractions (train_size validation_size : Q) :
  (0 < train_size)%Q -> (train_size < 1)%Q ->
  (0 < validation_size)%Q -> (validation_size < 1 - train_size)%Q ->
  Qeq_bool (1 - train_size) 0 = false
  /\ Qle_bool train_size 1 = true /\ Qle_bool 0 train_size = true
  /\ Qle_bool (validation_size / (1 - train_size)) 1 = true
  /\ Qle_bool 0 (validation_size / (1 - train_size)) = true.
Proof.
  intros Ht0 Ht1 Hv0 Hv1.
  assert (Hpos : (0 < 1 - train_size)%Q).
  { unfold Qminus. rewrite <-(Qplus_opp_r train_size).
    apply Qplus_lt_l. exact Ht1. }
  split.
  { destruct (Qeq_bool (1 - train_size) 0) eqn:Heq; [| done].
    apply Qeq_bool_iff in Heq. rewrite Heq in Hpos. by apply Qlt_irrefl in Hpos. }
  split; [apply Qle_bool_iff; by apply Qlt_le_weak |].
  split; [apply Qle_bool_iff; by apply Qlt_le_weak |].
  split; apply Qle_bool_iff.
  - apply Qle_shift_div_r; [done |]. rewrite Qmult_1_l. by apply Qlt_le_weak.
  - apply Qle_shift_div_l; [done |]. rewrite Qmult_0_l. by apply Qlt_le_weak.
Qed.

Lemma concat_ignore_index_ok (frames : list (list Row)) (relations : list string) :
  length frames = length relations -> relations <> [] ->
  concat_ignore_index frames = Ok (relabel (map edge (concat frames))).
Proof. destruct frames, relations; cbn; done. Qed.

Lemma NoDup_index_rest (data part data' : list Row) :
  NoDup (map index data) -> data ≡ₚ part ++ data' -> NoDup (map index data').
Proof.
  intros Hlabels Hperm. change (NoDup (index <$> data)) in Hlabels.
  rewrite Hperm, fmap_app in Hlabels. by apply NoDup_app in Hlabels as (_ & _ & ?).
Qed.

(** On a non-empty edgelist whose row labels are distinct, and with valid
    fractions, [_weighted_splitter] returns three frames; no edge occurs
    twice in them taken together, and their edges are exactly the edges of
    the edgelist. *)
Lemma weighted_splitter_partition (edgelist : list Row)
    (train_size validation_size : Q) (w : World) :
  edgelist <> [] -> NoDup (map index edgelist) ->
  (0 < train_size)%Q -> (train_size < 1)%Q ->
  (0 < validation_size)%Q -> (validation_size < 1 - train_size)%Q ->
  exists train validation test w',
    _weighted_splitter edgelist train_size validation_size w
    = (Ok [train; validation; test], w')
    /\ trace w' = trace w
    /\ NoDup (map edge (train ++ validation ++ test))
    /\ (forall e, e ∈ map edge (train ++ validation ++ test) <-> e ∈ map edge edgelist).
Proof.
  intros Hne Hlabels Ht0 Ht1 Hv0 Hv1.
  destruct (valid_fractions _ _ Ht0 Ht1 Hv0 Hv1) as (Hdiv & Htle & Htge & Hvle & Hvge).
  pose proof (rng_only_weighted_splitter edgelist train_size validation_size w) as Htrace.
  revert Htrace. unfold _weighted_splitter. rewrite Hdiv.
  set (relations := unique_relations edgelist).
  set (data := unique_by edge [] edgelist).
  assert (Hrels : relations <> []).
  { destruct edgelist as [|r0 rest]; [done |].
    assert (Hin : relation (edge r0) ∈ relations).
    { apply elem_of_unique_relations. exists r0. split; [by left | done]. }
    intros Heq. rewrite Heq in Hin. by apply elem_of_nil in Hin. }
  assert (Hlabels0 : NoDup (map index data)).
  { apply (sublist_NoDup _ (map index edgelist) Hlabels).
    change (map index ?l) with (index <$> l). apply fmap_sublist, unique_by_sublist. }
  clear Hlabels.
  cbn [split_rounds]. unfold bind, lift.
  destruct (split_round_spec train_size relations Htle Htge data [] w Hlabels0)
    as (data1 & new1 & w1 & -> & Hperm1 & Hlen1 & _).
  cbn [fst snd app]. rewrite (concat_ignore_index_ok new1 relations Hlen1 Hrels).
  pose proof (NoDup_index_rest _ _ _ Hlabels0 Hperm1) as Hlabels1.
  destruct (split_round_spec _ relations Hvle Hvge data1 [] w1 Hlabels1)
    as (data2 & new2 & w2 & -> & Hperm2 & Hlen2 & _).
  cbn [fst snd app]. rewrite (concat_ignore_index_ok new2 relations Hlen2 Hrels).
  pose proof (NoDup_index_rest _ _ _ Hlabels1 Hperm2) as Hlabels2.
  destruct (split_round_spec 1 relations eq_refl eq_refl data2 [] w2 Hlabels2)
    as (data3 & new3 & w3 & -> & Hperm3 & Hlen3 & Hall).
  cbn [fst snd app]. rewrite (concat_ignore_index_ok new3 relations Hlen3 Hrels).
  unfold ret. intros Htrace. eexists _, _, _, w3. split; [reflexivity |].
  split; [exact (f_equal (fun p => trace (snd p)) Htrace) |].
  assert (Hempty : data3 = []).
  { destruct data3 as [|r data3]; [done |]. exfalso.
    apply (Hall (Qeq_refl 1) r); [by left |].
    apply elem_of_unique_relations. exists r. split; [| done].
    assert (Hr : r ∈ data).
    { rewrite Hperm1, Hperm2, Hperm3. rewrite !elem_of_app. do 3 right. by left. }
    apply (elem_of_sublist _ _ _ Hr (unique_by_sublist edge edgelist [])). }
  subst data3. rewrite app_nil_r in Hperm3.
  assert (Hedges : map edge data
                   ≡ₚ map edge (relabel (map edge (concat new1))
                                ++ relabel (map edge (concat new2))
                                ++ relabel (map edge (concat new3)))).
  { rewrite !map_app, !edge_relabel, <-!map_app.
    change (map edge ?l) with (edge <$> l).
    by rewrite Hperm1, Hperm2, Hperm3. }
  split.
  - rewrite <-Hedges. apply unique_by_NoDup.
  - intros e. rewrite <-Hedges. unfold data. rewrite unique_by_keys.
    split; [by intros [? _] | intros ?; split; [done | by intros ?%elem_of_nil]].
Qed.

End Partition.

(** * The splitter on a frame with repeated row labels, and on no rows *)

Section RepeatedLabels.
Import kge.

(** With no rows there is no relation type, so every round has no frame to
    concatenate. *)
Lemma weighted_splitter_empty (train_size validation_size : Q) (w : World) :
  Qeq_bool (1 - train_size) 0 = false ->
  _weighted_splitter [] train_size validation_size w
  = (Raise (ValueError "No objects to concatenate"), w).
Proof. intros Hdiv. unfold _weighted_splitter. by rewrite Hdiv. Qed.

(** C1: two different edges of one relation type in rows that carry the same
    label, with [train_size = 0.5] and [validation_size = 0.25]. Whatever the
    random state, the training frame receives one of the two edges and the
    other two frames are empty: the edge that was not sampled is removed from
    the pool together with the sampled one, so the union of the three frames
    is not the deduplicated edgelist. *)
Theorem weighted_splitter_repeated_label_loses_edge (w : World) :
  let e1 := mkEdge "p1" "has" "g1" in
  let e2 := mkEdge "p2" "has" "g1" in
  exists train,
    fst (_weighted_splitter [mkRow 0 e1; mkRow 0 e2] (1 # 2) (1 # 4) w)
    = Ok [train; []; []]
    /\ (map edge train = [e1] \/ map edge train = [e2]).
Proof.
  destruct w as [[|d ds] t].
  - eexists. split; [vm_compute; reflexivity | by left].
  - pose proof (Nat.mod_upper_bound d 2 ltac:(lia)) as Hlt.
    cbv -[Nat.modulo].
    destruct (Nat.modulo d 2) as [|[|i]]; [| | lia].
    + eexists. split; [vm_compute; reflexivity | by left].
    + eexists. split; [vm_compute; reflexivity | by right].
Qed.

(** C2: one edge of each of two relation types, in rows that carry the same
    label, with [train_size = 0.8] and [validation_size = 0.1]. Whatever the
    random state, the edge of type [binds] goes to the training frame and the
    edge of type [has] goes to none of the three frames: it is assigned
    neither to train nor to validation, and the final round does not assign
    it to test. *)
Theorem weighted_splitter_repeated_label_uncovered (w : World) :
  let e1 := mkEdge "p1" "has" "g1" in
  let e2 := mkEdge "g1" "binds" "g2" in
  fst (_weighted_splitter [mkRow 0 e1; mkRow 0 e2] (8 # 10) (1 # 10) w)
  = Ok [[mkRow 0 e2]; []; []].
Proof.
  destruct w as [[|d ds] t].
  - vm_compute. reflexivity.
  - pose proof (Nat.mod_upper_bound d 1 ltac:(lia)) as Hlt.
    cbv -[Nat.modulo].
    destruct (Nat.modulo d 1) as [|i]; [| lia].
    vm_compute. reflexivity.
Qed.

End RepeatedLabels.

Lemma weighted_splitter_partition_witness :
  let edgelist :=
    [kge.mkRow 0 (kge.mkEdge "p1" "has" "g1"); kge.mkRow 1 (kge.mkEdge "p2" "has" "g1");
     kge.mkRow 2 (kge.mkEdge "g1" "binds" "g2"); kge.mkRow 3 (kge.mkEdge "p1" "has" "g1")] in
  exists train validation test w',
    kge._weighted_splitter edgelist (8 # 10) (1 # 10) (fresh [3; 1; 4; 1; 5])
    = (Ok [train; validation; test], w')
    /\ kge.trace w' = []
    /\ NoDup (map kge.edge (train ++ validation ++ test))
    /\ (forall e, e ∈ map kge.edge (train ++ validation ++ test)
                  <-> e ∈ map kge.edge edgelist).
Proof.
  intros edgelist.
  apply (weighted_splitter_partition edgelist (8 # 10) (1 # 10) (fresh [3; 1; 4; 1; 5])).
  - discriminate.
  - apply (bool_decide_unpack (NoDup (map kge.index edgelist))). vm_compute. exact I.
  - reflexivity.
  - reflexivity.
  - reflexivity.
  - reflexivity.
Defined.

(** * Sizes of the samples *)

Section SampleSizes.
Import kge.







End SampleSizes.

(** * Sizes of the three frames, per relation type *)

Section RelationCounts.
Import kge.











End RelationCounts.

(** * Boundary and rejected fractions *)

Section Fractions.
Import kge.








End Fractions.

(** * The shape of the result and the order of the relation types *)

Section Shape.
Import kge.

Lemma index_relabel (edges : list Edge) :
  map index (relabel edges) = seq 0 (length edges).
Proof.
  unfold relabel. change (map index ?l) with (index <$> l).
  rewrite fmap_imap. unfold compose. cbn [index].
  induction edges as [|e edges IH] using rev_ind; [done |].
  rewrite imap_app, length_app, seq_app, IH. cbn. by rewrite Nat.add_0_r.
Qed.

Lemma length_relabel (edges : list Edge) : length (relabel edges) = length edges.
Proof. unfold relabel. apply length_imap. Qed.

Lemma split_rounds_shape (fracs : list Q) (relations : list string) :
  forall (data : list Row) (split split' : list (list Row)) (w w' : World),
    split_rounds fracs relations data split w = (Ok split', w') ->
    exists parts,
      split' = split ++ parts
      /\ length parts = length fracs
      /\ Forall (fun part => map index part = seq 0 (length part)) parts.
Proof.
  induction fracs as [|frac fracs IH]; intros data split split' w w';
    cbn [split_rounds]; unfold bind, lift, ret.
  - intros [= <- _]. exists []. by rewrite app_nil_r.
  - destruct (split_round frac relations data [] w) as [[[data1 frames]|e] w1]; [| done].
    cbn [fst snd]. destruct frames as [|frame frames]; [done |].
    cbn [concat_ignore_index]. intros (parts & -> & Hlen & Hparts)%IH.
    eexists (_ :: parts). split; [by rewrite <-app_assoc |].
    split; [cbn [length]; by rewrite Hlen |].
    constructor; [| done].
    by rewrite index_relabel, length_relabel.
Qed.

(** Whenever [_weighted_splitter] returns, it returns exactly three frames,
    and each of them is labelled 0, 1, 2, ... in row order: the labels of the
    input rows are not kept. *)
Theorem weighted_splitter_three_relabelled_frames (edgelist : list Row)
    (train_size validation_size : Q) (w w' : World) (split : list (list Row)) :
  _weighted_splitter edgelist train_size validation_size w = (Ok split, w') ->
  exists train validation test,
    split = [train; validation; test]
    /\ map index train = seq 0 (length train)
    /\ map index validation = seq 0 (length validation)
    /\ map index test = seq 0 (length test).
Proof.
  unfold _weighted_splitter. destruct (Qeq_bool _ _); [done |].
  intros (parts & -> & Hlen & Hparts)%split_rounds_shape.
  destruct parts as [|train [|validation [|test [|]]]]; try done.
  apply Forall_cons in Hparts as [Htrain Hparts].
  apply Forall_cons in Hparts as [Hvalidation Hparts].
  apply Forall_cons in Hparts as [Htest _].
  by exists train, validation, test.
Qed.

(** [String.leb] is a total order. *)
Lemma ascii_compare_trans_le (a b c : ascii) :
  Ascii.compare a b <> Gt -> Ascii.compare b c <> Gt -> Ascii.compare a c <> Gt.
Proof.
  unfold Ascii.compare.
  destruct (N.compare_spec (N_of_ascii a) (N_of_ascii b));
    destruct (N.compare_spec (N_of_ascii b) (N_of_ascii c));
    destruct (N.compare_spec (N_of_ascii a) (N_of_ascii c)); try done; lia.
Qed.

Lemma string_compare_trans_le (s1 : string) :
  forall s2 s3,
    String.compare s1 s2 <> Gt -> String.compare s2 s3 <> Gt ->
    String.compare s1 s3 <> Gt.
Proof.
  induction s1 as [|c1 s1 IH]; intros [|c2 s2] [|c3 s3]; cbn [String.compare];
    try done.
  unfold Ascii.compare.
  destruct (N.compare_spec (N_of_ascii c1) (N_of_ascii c2)) as [H12 | H12 | H12];
    destruct (N.compare_spec (N_of_ascii c2) (N_of_ascii c3)) as [H23 | H23 | H23];
    destruct (N.compare_spec (N_of_ascii c1) (N_of_ascii c3)) as [H13 | H13 | H13];
    try done; try lia.
  apply IH.
Qed.

Lemma string_leb_trans (s1 s2 s3 : string) :
  String.leb s1 s2 = true -> String.leb s2 s3 = true -> String.leb s1 s3 = true.
Proof.
  unfold String.leb. intros H12 H23.
  pose proof (string_compare_trans_le s1 s2 s3) as Htrans.
  destruct (String.compare s1 s2), (String.compare s2 s3), (String.compare s1 s3);
    try done; exfalso; by apply Htrans.
Qed.

(** The order in which the relation types are visited depends only on which
    relation types occur: reordering or repeating rows does not change it. *)
Theorem unique_relations_canonical (edgelist edgelist' : list Row) :
  (forall rel, (exists r, r ∈ edgelist /\ relation (edge r) = rel)
               <-> (exists r, r ∈ edgelist' /\ relation (edge r) = rel)) ->
  unique_relations edgelist = unique_relations edgelist'.
Proof.
  intros Hsame.
  assert (Htrans : Transitive (fun a b => String.leb a b = true)).
  { intros a b c. apply string_leb_trans. }
  assert (Hanti : AntiSymm (=) (fun a b => String.leb a b = true)).
  { intros a b. apply String.leb_antisym. }
  apply (Sorted_unique (fun a b => String.leb a b = true)).
  - apply unique_relations_Sorted.
  - apply unique_relations_Sorted.
  - apply NoDup_Permutation; [apply unique_relations_NoDup.. |].
    intros rel. by rewrite !elem_of_unique_relations.
Qed.

End Shape.

(** * The two library runs and the order of the effects of [do_kge] *)

Section LibraryRuns.
Import kge.

Context {Any : Type}.
Variable hpo_pipeline :
  string -> string -> string -> list (string * Any) -> list Event -> result unit.
Variable pipeline_from_path :
  string -> string -> string -> string -> list Event -> result Model.

Lemma keyword_arguments_agree (model_config model_config' : gmap string Any)
    (keys : list (string * string)) :
  (forall key, key ∈ map snd keys -> model_config !! key = model_config' !! key) ->
  keyword_arguments Any model_config keys = keyword_arguments Any model_config' keys.
Proof.
  induction keys as [|[kw k] keys IH]; intros Hagree; [done |].
  cbn [keyword_arguments]. unfold getitem.
  rewrite (Hagree k) by (by left).
  rewrite IH; [done |]. intros key Hkey. apply Hagree. by right.
Qed.

(** [run_optimization] reads the 28 recognized keys and nothing else: two
    configurations that agree on them are treated alike, so any other key
    of [model_config] is ignored. *)
Theorem run_optimization_ignores_other_keys (dataset : string * string * string)
    (model_config model_config' : gmap string Any) (out_dir : string) (w : World) :
  (forall key, key ∈ recognized_keys -> model_config !! key = model_config' !! key) ->
  run_optimization Any hpo_pipeline dataset model_config out_dir w
  = run_optimization Any hpo_pipeline dataset model_config' out_dir w.
Proof.
  intros Hagree. destruct dataset as [[tr va] te]. unfold run_optimization.
  by rewrite (keyword_arguments_agree model_config model_config' hpo_keywords).
Qed.

Lemma keyword_arguments_values (model_config : gmap string Any)
    (keys : list (string * string)) (args : list (string * Any)) :
  keyword_arguments Any model_config keys = Ok args ->
  Forall2 (fun k a => a.1 = k.1 /\ model_config !! k.2 = Some a.2) keys args.
Proof.
  revert args. induction keys as [|[kw k] keys IH]; intros args;
    cbn [keyword_arguments].
  - intros [= <-]. constructor.
  - unfold getitem. destruct (model_config !! k) as [v|] eqn:Hk; [| done].
    destruct (keyword_arguments Any model_config keys) as [args'|]; [| done].
    intros [= <-]. constructor; [done | by apply IH].
Qed.

Lemma run_optimization_outcome (dataset : string * string * string)
    (model_config : gmap string Any) (out_dir : string) (w : World) :
  (forall key, key ∈ recognized_keys -> is_Some (model_config !! key)) ->
  exists args,
    Forall2 (fun k a => a.1 = k.1 /\ model_config !! k.2 = Some a.2) hpo_keywords args
    /\ let called := trace w ++ [HpoPipeline dataset.1.1 dataset.2 dataset.1.2] in
       let dir := path_join out_dir ["pykeen_results_optim"] in
       run_optimization Any hpo_pipeline dataset model_config out_dir w
       = match hpo_pipeline dataset.1.1 dataset.2 dataset.1.2 args called with
         | Ok _ => (Ok tt, mkWorld (rng w) (called ++ [EnsureDir dir; SaveToDirectory dir]))
         | Raise e => (Raise e, mkWorld (rng w) called)
         end.
Proof.
  intros Hall. destruct dataset as [[tr va] te].
  destruct (keyword_arguments_present model_config hpo_keywords) as (args & Hargs & _).
  { by rewrite hpo_keywords_recognized. }
  exists args. split; [by apply keyword_arguments_values |].
  cbv zeta. unfold run_optimization, bind, lift, emit. rewrite Hargs.
  cbn [trace rng fst snd].
  destruct (hpo_pipeline tr te va args _) as [[]|e]; [| done].
  cbn [trace rng]. by rewrite <-!app_assoc.
Qed.

Lemma run_pipeline_outcome (dataset : string * string * string)
    (out_dir : string) (w : World) :
  let config_path :=
    path_join (path_join out_dir ["pykeen_results_optim"])
      ["best_pipeline"; "pipeline_config.json"] in
  let called :=
    trace w ++ [PipelineFromPath config_path dataset.1.1 dataset.2 dataset.1.2] in
  let dir := path_join out_dir ["pykeen_results_final"] in
  run_pipeline pipeline_from_path dataset out_dir w
  = match pipeline_from_path config_path dataset.1.1 dataset.2 dataset.1.2 called with
    | Ok model =>
        (Ok model, mkWorld (rng w) (called ++ [EnsureDir dir; SaveToDirectory dir]))
    | Raise e => (Raise e, mkWorld (rng w) called)
    end.
Proof.
  destruct dataset as [[tr va] te]. cbv zeta.
  unfold run_pipeline, bind, lift, emit, ret. cbn [trace rng fst snd path_join foldl].
  destruct (pipeline_from_path _ tr te va _) as [model|e]; [| done].
  cbn [trace rng]. by rewrite <-!app_assoc.
Qed.

(** With every recognized key present, [run_optimization] calls the
    optimizer once, passing under each keyword the value that the
    configuration holds for the corresponding key (the key [loss_function]
    under the keyword [loss]). It creates and fills
    [<out_dir>/pykeen_results_optim] only if the optimizer returns; an error
    of the optimizer is passed on and nothing is saved. *)
Theorem run_optimization_saves_on_success (dataset : string * string * string)
    (model_config : gmap string Any) (out_dir : string) (w : World) :
  (forall key, key ∈ recognized_keys -> is_Some (model_config !! key)) ->
  exists args,
    Forall2 (fun k a => a.1 = k.1 /\ model_config !! k.2 = Some a.2) hpo_keywords args
    /\ let called := trace w ++ [HpoPipeline dataset.1.1 dataset.2 dataset.1.2] in
       let dir := path_join out_dir ["pykeen_results_optim"] in
       run_optimization Any hpo_pipeline dataset model_config out_dir w
       = match hpo_pipeline dataset.1.1 dataset.2 dataset.1.2 args called with
         | Ok _ => (Ok tt, mkWorld (rng w) (called ++ [EnsureDir dir; SaveToDirectory dir]))
         | Raise e => (Raise e, mkWorld (rng w) called)
         end.
Proof. apply run_optimization_outcome. Qed.

End LibraryRuns.

(** * The order of the effects of [do_kge] *)

Section DoKgeEffects.
Import kge.

Context {Any : Type}.
Variable hpo_pipeline :
  string -> string -> string -> list (string * Any) -> list Event -> result unit.
Variable pipeline_from_path :
  string -> string -> string -> string -> list Event -> result Model.

Local Abbreviation do_kge' := (do_kge Any hpo_pipeline pipeline_from_path).

Lemma weighted_splitter_trace (edgelist : list Row) (train_size validation_size : Q)
    (w w' : World) (r : result (list (list Row))) :
  _weighted_splitter edgelist train_size validation_size w = (r, w') ->
  trace w' = trace w.
Proof.
  rewrite (rng_only_weighted_splitter edgelist train_size validation_size w).
  by intros [= _ <-].
Qed.

(** A missing configuration key is found only after the split: [do_kge]
    raises [KeyError], and by then the three edgelist files have been
    written under [out], and nothing else has been done. *)
Theorem do_kge_missing_key_after_split (rows : list LRow)
    (design : gmap string (list Cell)) (out : string)
    (model_config : gmap string Any) (return_patients : bool)
    (train_size validation_size : Q) (w w1 : World)
    (train validation test : list Row) (key : string) :
  _weighted_splitter (map (fun r => mkRow (lindex r) (ledge r)) rows)
    train_size validation_size w = (Ok [train; validation; test], w1) ->
  key ∈ recognized_keys -> model_config !! key = None ->
  exists key',
    key' ∈ recognized_keys /\ model_config !! key' = None
    /\ do_kge' (WithLabel rows) design out model_config return_patients
         train_size validation_size w
       = (Raise (KeyError key'),
          mkWorld (rng w1)
            (trace w ++ [ToCsv (path_join out ["train.edgelist"]) (map edge train);
                         ToCsv (path_join out ["validation.edgelist"])
                           (map edge validation);
                         ToCsv (path_join out ["test.edgelist"]) (map edge test)])).
Proof.
  intros Hsplit Hkey Hnone.
  pose proof (weighted_splitter_trace _ _ _ _ _ _ Hsplit) as Htrace.
  set (w2 := mkWorld (rng w1)
               (trace w ++ [ToCsv (path_join out ["train.edgelist"]) (map edge train);
                            ToCsv (path_join out ["validation.edgelist"])
                              (map edge validation);
                            ToCsv (path_join out ["test.edgelist"]) (map edge test)])).
  destruct (keyword_arguments_missing model_config hpo_keywords)
    as (key' & Hkey' & Hnone' & Hraise).
  { exists key. by rewrite hpo_keywords_recognized. }
  rewrite hpo_keywords_recognized in Hkey'.
  exists key'. split; [done |]. split; [done |].
  unfold do_kge, do_kge_train, bind, lift, emit.
  cbn [getitem_label drop_label]. rewrite Hsplit. cbn [nth rng trace fst snd].
  rewrite Htrace, <-!app_assoc. cbn [app]. fold w2.
  unfold run_optimization, bind, lift. by rewrite Hraise.
Qed.

(** The whole run, when the split succeeds, every key is present and the
    library returns: [do_kge] writes the three edgelist files, calls the
    optimizer on them and saves its results, runs the pipeline from the
    saved best configuration and saves its results, in this order, and
    returns the table built from the trained model and from the labels of
    the rows. *)
Theorem do_kge_run (rows : list LRow)
    (design : gmap string (list Cell)) (out : string)
    (model_config : gmap string Any) (return_patients : bool)
    (train_size validation_size : Q) (w w1 : World)
    (train validation test : list Row) (model : Model) :
  let train_path := path_join out ["train.edgelist"] in
  let validation_path := path_join out ["validation.edgelist"] in
  let test_path := path_join out ["test.edgelist"] in
  let optimization_dir := path_join out ["pykeen_results_optim"] in
  let config_path :=
    path_join optimization_dir ["best_pipeline"; "pipeline_config.json"] in
  let final_dir := path_join out ["pykeen_results_final"] in
  _weighted_splitter (map (fun r => mkRow (lindex r) (ledge r)) rows)
    train_size validation_size w = (Ok [train; validation; test], w1) ->
  (forall key, key ∈ recognized_keys -> is_Some (model_config !! key)) ->
  (forall args files,
     hpo_pipeline train_path test_path validation_path args files = Ok tt) ->
  (forall files,
     pipeline_from_path config_path train_path test_path validation_path files
     = Ok model) ->
  do_kge' (WithLabel rows) design out model_config return_patients
    train_size validation_size w
  = (do_kge_table (map str <$> design) (label_mapping_of (unique_nodes rows))
       model return_patients,
     mkWorld (rng w1)
       (trace w ++ [ToCsv train_path (map edge train);
                    ToCsv validation_path (map edge validation);
                    ToCsv test_path (map edge test);
                    HpoPipeline train_path test_path validation_path;
                    EnsureDir optimization_dir;
                    SaveToDirectory optimization_dir;
                    PipelineFromPath config_path train_path test_path validation_path;
                    EnsureDir final_dir;
                    SaveToDirectory final_dir])).
Proof.
  intros train_path validation_path test_path optimization_dir config_path final_dir
    Hsplit Hall Hhpo Hpipeline.
  pose proof (weighted_splitter_trace _ _ _ _ _ _ Hsplit) as Htrace.
  set (w2 := mkWorld (rng w1)
               (trace w ++ [ToCsv train_path (map edge train);
                            ToCsv validation_path (map edge validation);
                            ToCsv test_path (map edge test)])).
  destruct (run_optimization_outcome hpo_pipeline
              (train_path, validation_path, test_path) model_config out w2 Hall)
    as (args & _ & Hopt).
  cbv zeta in Hopt. cbn [fst snd] in Hopt. rewrite Hhpo in Hopt.
  pose proof (run_pipeline_outcome pipeline_from_path
                (train_path, validation_path, test_path) out) as Hpipe.
  cbv zeta in Hpipe. cbn [fst snd] in Hpipe.
  unfold do_kge, do_kge_train, bind, lift, emit, ret.
  cbn [getitem_label drop_label]. rewrite Hsplit. cbn [nth rng trace fst snd].
  rewrite Htrace, <-!app_assoc. cbn [app]. fold train_path validation_path test_path.
  fold w2. rewrite Hopt, Hpipe.
  fold optimization_dir config_path. rewrite Hpipeline.
  subst w2. cbn [rng trace fst snd]. by rewrite <-!app_assoc.
Qed.

End DoKgeEffects.

(** * Rows of the embedding table *)

Section TableRows.
Import kge.

Lemma id_of_lookup (d : list (string * nat)) (k : string) (v : nat) :
  NoDup (map fst d) -> (k, v) ∈ d -> id_of d k = v.
Proof.
  unfold id_of. induction d as [|[k0 v0] d IH]; intros Hnd Hin;
    [by apply elem_of_nil in Hin |].
  cbn [map fst] in Hnd. apply NoDup_cons in Hnd as [Hfresh Hnd].
  cbn [find fst snd]. apply elem_of_cons in Hin as [[= -> ->] | Hin].
  - by rewrite bool_decide_eq_true_2.
  - rewrite bool_decide_eq_false_2; [by apply IH |].
    intros ->. apply Hfresh. apply elem_of_map. by exists (k, v).
Qed.

Lemma id_of_keys (d : list (string * nat)) :
  NoDup (map fst d) -> map (id_of d) (map fst d) = map snd d.
Proof.
  intros Hnd. rewrite map_map. apply map_ext_in. intros [k v] Hin%list_elem_of_In.
  cbn [fst snd]. by apply id_of_lookup.
Qed.

Lemma Sorted_seq (j n : nat) : Sorted le (seq j n).
Proof.
  revert j. induction n as [|n IH]; intros j; cbn [seq]; constructor; [apply IH |].
  destruct n; cbn [seq]; constructor. lia.
Qed.

Lemma Sorted_map {A} (f : A -> nat) (l : list A) :
  Sorted (fun x y => (f x <= f y)%nat) l -> Sorted le (map f l).
Proof.
  induction 1 as [|x l Hs IH Hhd]; cbn [map]; constructor; [done |].
  destruct Hhd; cbn [map]; by constructor.
Qed.

(** When the model numbers its entities 0, 1, ..., the sorted index lists
    them by number. *)
Lemma embedding_index_ids (model : Model) :
  NoDup (map fst (entity_to_id model)) ->
  map snd (entity_to_id model) ≡ₚ seq 0 (length (entity_to_id model)) ->
  map (id_of (entity_to_id model)) (embedding_index model)
  = seq 0 (length (entity_to_id model)).
Proof.
  intros Hkeys Hids.
  apply (Sorted_unique le); [apply Sorted_map, embedding_index_Sorted | apply Sorted_seq |].
  rewrite <-Hids, <-(id_of_keys _ Hkeys).
  change (map ?f ?l) with (f <$> l).
  by rewrite (embedding_index_Permutation model).
Qed.

Lemma attach_labels_vectors (label_mapping : gmap string Cell) (idxs : list string) :
  forall t t',
    attach_labels label_mapping idxs t = Ok t' ->
    map (fun r => (name r, components r)) (rows t')
    = map (fun r => (name r, components r)) (rows t).
Proof.
  induction idxs as [|i idxs IH]; intros t t'; cbn [attach_labels].
  - by intros [= <-].
  - unfold getitem. destruct (label_mapping !! i) as [v|]; [| done].
    intros ->%IH. unfold at_set_label. cbn [rows]. rewrite map_map.
    apply map_ext. intros r. by case_bool_decide.
Qed.

(** Every row of the table holds the vector of its own entity: when the
    model numbers its entities 0, 1, ... without repetition, the components
    of the row named [x] are the row of the embedding matrix at the number
    that the model assigns to [x], with or without [return_patients]. *)
Theorem do_kge_table_vectors (design_norm_df : gmap string (list string))
    (label_mapping : gmap string Cell) (model : Model) (return_patients : bool)
    (t : Table) :
  NoDup (map fst (entity_to_id model)) ->
  map snd (entity_to_id model) ≡ₚ seq 0 (length (entity_to_id model)) ->
  do_kge_table design_norm_df label_mapping model return_patients = Ok t ->
  forall r, r ∈ rows t ->
    array_rows (_model_to_numpy model) !! id_of (entity_to_id model) (name r)
    = Some (components r).
Proof.
  intros Hkeys Hids Htable.
  pose proof (embedding_index_ids model Hkeys Hids) as Hseq.
  unfold do_kge_table in Htable.
  destruct (DataFrame _ _ _) as [table|] eqn:Hdf; [| done].
  assert (Hbase : forall r, r ∈ rows table ->
            array_rows (_model_to_numpy model) !! id_of (entity_to_id model) (name r)
            = Some (components r)).
  { unfold DataFrame in Hdf. case_bool_decide; [| done]. injection Hdf as <-.
    cbn [rows]. intros r (i & Hi)%list_elem_of_lookup_1.
    apply lookup_zip_with_Some in Hi as (n & v & -> & Hn & Hv). cbn [name components].
    assert (Hid : map (id_of (entity_to_id model)) (embedding_index model) !! i
                  = Some (id_of (entity_to_id model) n)).
    { change (map ?f ?l) with (f <$> l). by rewrite list_lookup_fmap, Hn. }
    rewrite Hseq in Hid. apply lookup_seq in Hid as [-> _]. done. }
  assert (Hpairs : forall trows : list TRow,
            (forall r, r ∈ trows ->
               array_rows (_model_to_numpy model)
                 !! id_of (entity_to_id model) (name r) = Some (components r)) ->
            forall trows',
              map (fun r => (name r, components r)) trows'
              = map (fun r => (name r, components r)) trows ->
              forall r, r ∈ trows' ->
                array_rows (_model_to_numpy model)
                  !! id_of (entity_to_id model) (name r) = Some (components r)).
  { intros trows Hrows trows' Heq r Hr.
    assert (Hin : (name r, components r) ∈ map (fun r => (name r, components r)) trows).
    { rewrite <-Heq. apply elem_of_map. by exists r. }
    apply elem_of_map in Hin as (r0 & [= Hn Hc] & Hr0).
    rewrite Hn, Hc. by apply Hrows. }
  destruct return_patients.
  - destruct (getitem design_norm_df "FileName") as [file_names|]; [| done].
    apply attach_labels_vectors in Htable. cbn [rows] in Htable.
    apply (Hpairs (filter (fun r => name r ∈ file_names) (rows table))); [| done].
    intros r [_ Hr]%list_elem_of_filter. by apply Hbase.
  - injection Htable as <-. exact Hbase.
Qed.

End TableRows.

(** * Patients and the design table; the evaluator *)

Section Patients.
Import kge.

Context {Any : Type}.
Variable hpo_pipeline :
  string -> string -> string -> list (string * Any) -> list Event -> result unit.
Variable pipeline_from_path :
  string -> string -> string -> string -> list Event -> result Model.

Local Abbreviation do_kge' := (do_kge Any hpo_pipeline pipeline_from_path).
Local Abbreviation do_kge_train' := (do_kge_train Any hpo_pipeline pipeline_from_path).

Lemma filter_none {A} (P : A -> Prop) `{forall x, Decision (P x)} (l : list A) :
  (forall x, x ∈ l -> ~ P x) -> filter P l = [].
Proof.
  induction l as [|x l IH]; intros Hnone; [done |].
  rewrite filter_cons_False by (apply Hnone; by left).
  apply IH. intros y Hy. apply Hnone. by right.
Qed.

(** With [return_patients] set and no entity of the model among the file
    names of the design, [do_kge] returns a table without rows and without
    a [label] column; no label is looked up, so no error is raised even
    when no row of the edgelist carried a label. *)
Theorem do_kge_no_patient_among_entities edgelist design out model_config
    train_size validation_size (w w1 : World) label_mapping best_model file_names :
  do_kge_train' edgelist out model_config train_size validation_size w
  = (Ok (label_mapping, best_model), w1) ->
  (map str <$> design) !! "FileName" = Some file_names ->
  length (entity_to_id best_model) = length (array_rows (_model_to_numpy best_model)) ->
  (forall n, n ∈ map fst (entity_to_id best_model) -> n ∉ file_names) ->
  do_kge' edgelist design out model_config true train_size validation_size w
  = (Ok (mkTable (embedding_columns (shape1 (_model_to_numpy best_model))) []), w1).
Proof.
  intros Htrain Hfn Hshape Hnone.
  rewrite (do_kge_trained _ _ _ design _ _ true _ _ _ _ _ _ Htrain).
  unfold do_kge_table.
  destruct (DataFrame_shape best_model Hshape) as [table Hdf]. rewrite Hdf.
  apply DataFrame_ok in Hdf as (Hcols & Hnames & _).
  unfold getitem. rewrite Hfn.
  rewrite (filter_none (fun r => name r ∈ file_names) (rows table)).
  - cbn [map attach_labels]. by rewrite Hcols.
  - intros r Hr Hin. apply (Hnone (name r)); [| done].
    rewrite <-(embedding_index_Permutation best_model), <-Hnames.
    apply elem_of_map. by exists r.
Qed.

(** The design is read only at the end and only with [return_patients]: a
    design without a [FileName] column makes [do_kge] raise [KeyError] after
    the model has been trained and saved, and is accepted when
    [return_patients] is not set. *)
Theorem do_kge_design_without_file_names edgelist design out model_config
    train_size validation_size (w w1 : World) label_mapping best_model :
  do_kge_train' edgelist out model_config train_size validation_size w
  = (Ok (label_mapping, best_model), w1) ->
  design !! "FileName" = None ->
  length (entity_to_id best_model) = length (array_rows (_model_to_numpy best_model)) ->
  do_kge' edgelist design out model_config true train_size validation_size w
  = (Raise (KeyError "FileName"), w1)
  /\ exists t,
       do_kge' edgelist design out model_config false train_size validation_size w
       = (Ok t, w1)
       /\ map name (rows t) = embedding_index best_model.
Proof.
  intros Htrain Hfn Hshape.
  rewrite !(do_kge_trained _ _ _ design _ _ _ _ _ _ _ _ _ Htrain).
  unfold do_kge_table.
  destruct (DataFrame_shape best_model Hshape) as [table Hdf]. rewrite Hdf.
  apply DataFrame_ok in Hdf as (_ & Hnames & _).
  unfold getitem. rewrite lookup_fmap, Hfn. cbn [fmap option_fmap option_map].
  split; [done |]. by exists table.
Qed.

End Patients.

Section Evaluator.
Import classify.

Context {Any Data Labels : Type}.
Variable fold_scores :
  Estimator Any -> Data -> Labels -> nat -> result (string -> list Q).

(** [do_classification] never returns a result and never saves a figure,
    whatever the model name: an unknown name is rejected before any fitting,
    an error of the cross-validation is passed on, and a cross-validation
    that succeeds is followed by the [KeyError] for [test_f1_micro]. *)
Theorem do_classification_never_returns
    (data : Data) (labels : Labels) (model_name outfile : string)
    (title : option string) (args : list Any) :
  is_ok (do_classification Any Data Labels fold_scores data labels model_name
           outfile title args) = false
  /\ do_classification Any Data Labels fold_scores data labels model_name outfile
       title args
     = match get_classifier Any model_name args with
       | Raise e => Raise e
       | Ok model =>
           match fold_scores model data labels 10 with
           | Ok _ => Raise (KeyError "test_f1_micro")
           | Raise e => Raise e
           end
       end.
Proof.
  assert (Heq : do_classification Any Data Labels fold_scores data labels
                  model_name outfile title args
                = match get_classifier Any model_name args with
                  | Raise e => Raise e
                  | Ok model =>
                      match fold_scores model data labels 10 with
                      | Ok _ => Raise (KeyError "test_f1_micro")
                      | Raise e => Raise e
                      end
                  end);
    [| split; [| exact Heq]; rewrite Heq;
       destruct (get_classifier Any model_name args) as [model|]; [| done];
       by destruct (fold_scores model data labels 10)].
  unfold do_classification.
  destruct (get_classifier Any model_name args) as [model|e]; [| done].
  destruct (cross_validate _ _ _ _ _ _ _ _ _) as [cv_results|e] eqn:Hcv.
  - pose proof (cross_validate_keys _ _ _ _ _ _ Hcv) as (Hacc & _ & _ & Hf1).
    unfold cross_validate in Hcv.
    destruct (fold_scores _ _ _ _); [| done].
    destruct Hacc as [acc Hacc]. cbn [collect]. unfold getitem.
    by rewrite Hacc, Hf1.
  - unfold cross_validate in Hcv.
    destruct (fold_scores _ _ _ _); [done |]. by injection Hcv as ->.
Qed.

End Evaluator.

(** * Instances on small inputs *)



Lemma weighted_splitter_three_relabelled_frames_witness :
  let edgelist :=
    [kge.mkRow 7 (kge.mkEdge "p1" "has" "g1"); kge.mkRow 7 (kge.mkEdge "p2" "has" "g1");
     kge.mkRow 9 (kge.mkEdge "g1" "binds" "g2")] in
  exists split w',
    kge._weighted_splitter edgelist (8 # 10) (1 # 10) (fresh [3; 1; 4; 1; 5])
    = (Ok split, w')
    /\ exists train validation test,
         split = [train; validation; test]
         /\ map kge.index train = seq 0 (length train)
         /\ map kge.index validation = seq 0 (length validation)
         /\ map kge.index test = seq 0 (length test).
Proof.
  intros edgelist. eexists _, _. split; [vm_compute; reflexivity |].
  eapply (weighted_splitter_three_relabelled_frames edgelist (8 # 10) (1 # 10)
            (fresh [3; 1; 4; 1; 5])).
  vm_compute. reflexivity.
Defined.

Lemma weighted_splitter_empty_witness :
  Qeq_bool (1 - (8 # 10)) 0 = false
  /\ kge._weighted_splitter [] (8 # 10) (1 # 10) (fresh [3; 1; 4])
     = (Raise (ValueError "No objects to concatenate"), fresh [3; 1; 4]).
Proof.
  split; [reflexivity |].
  apply (weighted_splitter_empty (8 # 10) (1 # 10) (fresh [3; 1; 4])). reflexivity.
Defined.


Lemma unique_relations_canonical_witness :
  let a := kge.mkRow 0 (kge.mkEdge "p1" "has" "g1") in
  let b := kge.mkRow 1 (kge.mkEdge "g1" "binds" "g2") in
  kge.unique_relations [a; b] = kge.unique_relations [b; a; a].
Proof.
  intros a b. apply (unique_relations_canonical [a; b] [b; a; a]).
  intros rel. split; intros (r & Hr & <-).
  - apply elem_of_cons in Hr as [-> | Hr]; [exists a; split; [set_solver | done] |].
    apply list_elem_of_singleton in Hr as ->. exists b. split; [set_solver | done].
  - apply elem_of_cons in Hr as [-> | Hr]; [exists b; split; [set_solver | done] |].
    apply elem_of_cons in Hr as [-> | Hr]; [exists a; split; [set_solver | done] |].
    apply list_elem_of_singleton in Hr as ->. exists a. split; [set_solver | done].
Defined.

Lemma full_config_present :
  forall key, key ∈ recognized_keys -> is_Some (full_config !! key).
Proof.
  apply Forall_forall.
  apply (bool_decide_unpack
           (Forall (fun key => is_Some (full_config !! key)) recognized_keys)).
  vm_compute. exact I.
Qed.

Lemma run_optimization_ignores_other_keys_witness :
  kge.run_optimization unit hpo_succeeds ("tr", "va", "te") full_config "out" (fresh [])
  = kge.run_optimization unit hpo_succeeds ("tr", "va", "te")
      (<["verbose" := tt]> full_config) "out" (fresh []).
Proof.
  apply (run_optimization_ignores_other_keys hpo_succeeds ("tr", "va", "te")
           full_config (<["verbose" := tt]> full_config) "out" (fresh [])).
  intros key Hkey. rewrite lookup_insert_ne; [done |].
  intros <-. revert Hkey.
  apply (bool_decide_unpack ("verbose" ∉ recognized_keys)). vm_compute. exact I.
Defined.

Lemma run_optimization_saves_on_success_witness :
  exists args,
    Forall2 (fun k a => a.1 = k.1 /\ full_config !! k.2 = Some a.2)
      kge.hpo_keywords args
    /\ kge.run_optimization unit hpo_succeeds ("tr", "va", "te") full_config "out"
         (fresh [])
       = match hpo_succeeds "tr" "te" "va" args [kge.HpoPipeline "tr" "te" "va"] with
         | Ok _ =>
             (Ok tt,
              kge.mkWorld []
                ([kge.HpoPipeline "tr" "te" "va"]
                 ++ [kge.EnsureDir (kge.path_join "out" ["pykeen_results_optim"]);
                     kge.SaveToDirectory (kge.path_join "out" ["pykeen_results_optim"])]))
         | Raise e => (Raise e, kge.mkWorld [] [kge.HpoPipeline "tr" "te" "va"])
         end.
Proof.
  apply (run_optimization_saves_on_success hpo_succeeds ("tr", "va", "te")
           full_config "out" (fresh []) full_config_present).
Defined.

Lemma do_kge_missing_key_after_split_witness :
  let rows := [kge.mkLRow 0 (kge.mkEdge "patient1" "has" "gene1") (Int 1)] in
  let config := delete "timeout" full_config in
  exists train validation test w1,
    kge._weighted_splitter (map (fun r => kge.mkRow (kge.lindex r) (kge.ledge r)) rows)
      (8 # 10) (1 # 10) (fresh [0; 0; 0]) = (Ok [train; validation; test], w1)
    /\ exists key',
         key' ∈ recognized_keys /\ config !! key' = None
         /\ kge.do_kge unit hpo_succeeds pipeline_succeeds (kge.WithLabel rows)
              one_patient_design "out" config true (8 # 10) (1 # 10) (fresh [0; 0; 0])
            = (Raise (KeyError key'),
               kge.mkWorld (kge.rng w1)
                 ([] ++ [kge.ToCsv (kge.path_join "out" ["train.edgelist"])
                           (map kge.edge train);
                         kge.ToCsv (kge.path_join "out" ["validation.edgelist"])
                           (map kge.edge validation);
                         kge.ToCsv (kge.path_join "out" ["test.edgelist"])
                           (map kge.edge test)])).
Proof.
  intros rows config. eexists _, _, _, _. split; [vm_compute; reflexivity |].
  eapply (do_kge_missing_key_after_split hpo_succeeds pipeline_succeeds rows
            one_patient_design "out" config true (8 # 10) (1 # 10) (fresh [0; 0; 0])
            _ _ _ _ "timeout").
  - vm_compute. reflexivity.
  - apply (bool_decide_unpack ("timeout" ∈ recognized_keys)). vm_compute. exact I.
  - reflexivity.
Defined.

Lemma do_kge_run_witness :
  let rows := [kge.mkLRow 0 (kge.mkEdge "patient1" "has" "gene1") (Int 1)] in
  exists train validation test w1,
    kge._weighted_splitter (map (fun r => kge.mkRow (kge.lindex r) (kge.ledge r)) rows)
      (8 # 10) (1 # 10) (fresh [0; 0; 0]) = (Ok [train; validation; test], w1)
    /\ kge.do_kge unit hpo_succeeds pipeline_succeeds (kge.WithLabel rows)
         one_patient_design "out" full_config true (8 # 10) (1 # 10) (fresh [0; 0; 0])
       = (kge.do_kge_table (map str <$> one_patient_design)
            (kge.label_mapping_of (kge.unique_nodes rows)) two_entities true,
          kge.mkWorld (kge.rng w1)
            ([] ++ [kge.ToCsv (kge.path_join "out" ["train.edgelist"]) (map kge.edge train);
                    kge.ToCsv (kge.path_join "out" ["validation.edgelist"])
                      (map kge.edge validation);
                    kge.ToCsv (kge.path_join "out" ["test.edgelist"]) (map kge.edge test);
                    kge.HpoPipeline (kge.path_join "out" ["train.edgelist"])
                      (kge.path_join "out" ["test.edgelist"])
                      (kge.path_join "out" ["validation.edgelist"]);
                    kge.EnsureDir (kge.path_join "out" ["pykeen_results_optim"]);
                    kge.SaveToDirectory (kge.path_join "out" ["pykeen_results_optim"]);
                    kge.PipelineFromPath
                      (kge.path_join (kge.path_join "out" ["pykeen_results_optim"])
                         ["best_pipeline"; "pipeline_config.json"])
                      (kge.path_join "out" ["train.edgelist"])
                      (kge.path_join "out" ["test.edgelist"])
                      (kge.path_join "out" ["validation.edgelist"]);
                    kge.EnsureDir (kge.path_join "out" ["pykeen_results_final"]);
                    kge.SaveToDirectory (kge.path_join "out" ["pykeen_results_final"])])).
Proof.
  intros rows. eexists _, _, _, _. split; [vm_compute; reflexivity |].
  eapply (do_kge_run hpo_succeeds pipeline_succeeds rows one_patient_design "out"
            full_config true (8 # 10) (1 # 10) (fresh [0; 0; 0]) _ _ _ _ two_entities).
  - vm_compute. reflexivity.
  - exact full_config_present.
  - reflexivity.
  - reflexivity.
Defined.

Lemma do_kge_table_vectors_witness :
  NoDup (map fst (kge.entity_to_id two_entities))
  /\ exists t,
       kge.do_kge_table (map str <$> one_patient_design) {[ "patient1" := Int 1 ]}
         two_entities true = Ok t
       /\ forall r, r ∈ kge.rows t ->
            kge.array_rows (kge._model_to_numpy two_entities)
              !! kge.id_of (kge.entity_to_id two_entities) (kge.name r)
            = Some (kge.components r).
Proof.
  assert (Hkeys : NoDup (map fst (kge.entity_to_id two_entities))).
  { apply (bool_decide_unpack (NoDup (map fst (kge.entity_to_id two_entities)))).
    vm_compute. exact I. }
  split; [exact Hkeys |]. eexists. split; [vm_compute; reflexivity |].
  eapply (do_kge_table_vectors (map str <$> one_patient_design)
            {[ "patient1" := Int 1 ]} two_entities true _ Hkeys).
  - apply perm_swap.
  - vm_compute. reflexivity.
Defined.

Lemma do_kge_no_patient_among_entities_witness :
  let edgelist :=
    kge.WithLabel [kge.mkLRow 0 (kge.mkEdge "patient1" "has" "gene1") NaN] in
  let design : gmap string (list Cell) := {[ "FileName" := [Int 7] ]} in
  let trained :=
    kge.do_kge_train unit hpo_succeeds pipeline_succeeds edgelist "out"
      full_config (8 # 10) (1 # 10) (fresh [0; 0; 0]) in
  trained = (Ok (∅, two_entities), snd trained)
  /\ kge.do_kge unit hpo_succeeds pipeline_succeeds edgelist design "out"
       full_config true (8 # 10) (1 # 10) (fresh [0; 0; 0])
     = (Ok (kge.mkTable
              (kge.embedding_columns (kge.shape1 (kge._model_to_numpy two_entities)))
              []),
        snd trained).
Proof.
  intros edgelist design trained.
  assert (Htrain : trained = (Ok (∅, two_entities), snd trained))
    by (vm_compute; reflexivity).
  split; [exact Htrain |].
  apply (do_kge_no_patient_among_entities hpo_succeeds pipeline_succeeds edgelist
           design "out" full_config (8 # 10) (1 # 10) (fresh [0; 0; 0])
           (snd trained) ∅ two_entities ["7"] Htrain).
  - reflexivity.
  - reflexivity.
  - intros n Hn Hin. apply list_elem_of_singleton in Hin as ->. revert Hn.
    apply (bool_decide_unpack ("7" ∉ map fst (kge.entity_to_id two_entities))).
    vm_compute. exact I.
Defined.

Lemma do_kge_design_without_file_names_witness :
  let edgelist :=
    kge.WithLabel [kge.mkLRow 0 (kge.mkEdge "patient1" "has" "gene1") (Int 1)] in
  let design : gmap string (list Cell) := {[ "Patient" := [Str "patient1"] ]} in
  let trained :=
    kge.do_kge_train unit hpo_succeeds pipeline_succeeds edgelist "out"
      full_config (8 # 10) (1 # 10) (fresh [0; 0; 0]) in
  trained = (Ok ({[ "patient1" := Int 1 ]}, two_entities), snd trained)
  /\ kge.do_kge unit hpo_succeeds pipeline_succeeds edgelist design "out"
       full_config true (8 # 10) (1 # 10) (fresh [0; 0; 0])
     = (Raise (KeyError "FileName"), snd trained)
  /\ exists t,
       kge.do_kge unit hpo_succeeds pipeline_succeeds edgelist design "out"
         full_config false (8 # 10) (1 # 10) (fresh [0; 0; 0]) = (Ok t, snd trained)
       /\ map kge.name (kge.rows t) = kge.embedding_index two_entities.
Proof.
  intros edgelist design trained.
  assert (Htrain : trained
                   = (Ok ({[ "patient1" := Int 1 ]}, two_entities), snd trained))
    by (vm_compute; reflexivity).
  split; [exact Htrain |].
  apply (do_kge_design_without_file_names hpo_succeeds pipeline_succeeds edgelist
           design "out" full_config (8 # 10) (1 # 10) (fresh [0; 0; 0])
           (snd trained) {[ "patient1" := Int 1 ]} two_entities Htrain).
  - reflexivity.
  - reflexivity.
Defined.
